(** * MosaicWM: the extended canvas manager and the window state store

    A shallow embedding of [extension/extendedCanvas.js] (class
    [ExtendedCanvasManager] and [CanvasState]), of the window state store
    ([windowState.js]) and of the constants they read.

    JavaScript numbers are modelled as rationals [Q]: pixel coordinates,
    ratios and clock readings are added, multiplied, halved and floored,
    and none of the properties below depends on rounding of doubles.
    Objects that the code mutates in place (windows, actors, canvas
    states) live in explicit stores that are threaded through the
    functions. *)

From Stdlib Require Import QArith Qround Qminmax Qabs Lqa ZArith Lia List Permutation.
From stdpp Require Import gmap strings list fin_maps.

Local Open Scope Q_scope.

(** ** JavaScript number primitives *)

Module Js.

(** [a <= b], [a < b], [a > b], [a >= b] and [a === b] on numbers. *)
Definition leb (a b : Q) : bool := Qle_bool a b.
Definition ltb (a b : Q) : bool := negb (Qle_bool b a).
Definition gtb (a b : Q) : bool := ltb b a.
Definition geb (a b : Q) : bool := leb b a.
Definition strict_eq (a b : Q) : bool := Qeq_bool a b.

Definition Math_floor (q : Q) : Q := inject_Z (Qfloor q).
(** [Math.round] rounds half up: [floor (q + 1/2)]. *)
Definition Math_round (q : Q) : Q := inject_Z (Qfloor (q + (1 # 2))).
Definition Math_abs (q : Q) : Q := Qabs q.
Definition Math_max (a b : Q) : Q := Qmax a b.
Definition Math_min (a b : Q) : Q := Qmin a b.

(** [v || 0] for a property that is either unset or a number. *)
Definition or_zero (v : option Q) : Q := default 0 v.

End Js.

(** ** Rectangles, positions and viewports *)

Module Rect.
Record t : Type := mk { x : Q; y : Q; width : Q; height : Q }.
End Rect.

Module Pos.
Record t : Type := mk { x : Q; y : Q }.
End Pos.

Module Viewport.
Record t : Type := mk { x : Q; width : Q }.
End Viewport.

(** ** The window system's objects

    A [Clutter] actor as the manager uses it: opacity, position,
    translation, clip rectangle, running transitions and the relayout
    request.  Setters store, getters read back. *)

Module Actor.
Record t : Type := mk {
  opacity : Q;
  x : Q;
  y : Q;
  translation_x : Q;
  translation_y : Q;
  translation_z : Q;
  clip : option Rect.t;
  transitions : bool;
  relayout_queued : bool }.

Definition set_opacity (v : Q) (a : t) : t :=
  mk v (x a) (y a) (translation_x a) (translation_y a) (translation_z a)
     (clip a) (transitions a) (relayout_queued a).
Definition set_position (px py : Q) (a : t) : t :=
  mk (opacity a) px py (translation_x a) (translation_y a) (translation_z a)
     (clip a) (transitions a) (relayout_queued a).
Definition set_translation (tx ty tz : Q) (a : t) : t :=
  mk (opacity a) (x a) (y a) tx ty tz (clip a) (transitions a) (relayout_queued a).
Definition set_clip (cx cy cw ch : Q) (a : t) : t :=
  mk (opacity a) (x a) (y a) (translation_x a) (translation_y a) (translation_z a)
     (Some (Rect.mk cx cy cw ch)) (transitions a) (relayout_queued a).
Definition remove_clip (a : t) : t :=
  mk (opacity a) (x a) (y a) (translation_x a) (translation_y a) (translation_z a)
     None (transitions a) (relayout_queued a).
Definition remove_all_transitions (a : t) : t :=
  mk (opacity a) (x a) (y a) (translation_x a) (translation_y a) (translation_z a)
     (clip a) false (relayout_queued a).
Definition queue_relayout (a : t) : t :=
  mk (opacity a) (x a) (y a) (translation_x a) (translation_y a) (translation_z a)
     (clip a) (transitions a) true.
End Actor.

Module Workspace.
Record t : Type := mk {
  index : Z;
  get_work_area_for_monitor : Z -> Rect.t }.
End Workspace.

(** A [Meta.Window] with the expando properties the manager hangs on it.
    [pending_clip] is what the closure [applyClipOnce] has captured
    ([clipTarget], [clipViewport]) while a signal or a timeout is armed. *)
Module MetaWindow.
Record t : Type := mk {
  id : Z;
  frame_rect : Rect.t;
  buffer_rect : Rect.t;
  compositor_private : option Actor.t;
  workspace : Workspace.t;
  monitor : Z;
  skip_taskbar : bool;
  window_type_normal : bool;
  _mosaicPositionCorrectionX : option Q;
  _mosaicPositionCorrectionY : option Q;
  _mosaicClipSignalId : option Z;
  _mosaicClipTimeoutId : option Z;
  pending_clip : option (Rect.t * Viewport.t) }.

Definition with_actor (a : option Actor.t) (w : t) : t :=
  mk (id w) (frame_rect w) (buffer_rect w) a (workspace w) (monitor w)
     (skip_taskbar w) (window_type_normal w)
     (_mosaicPositionCorrectionX w) (_mosaicPositionCorrectionY w)
     (_mosaicClipSignalId w) (_mosaicClipTimeoutId w) (pending_clip w).
Definition with_geometry (frame buffer : Rect.t) (w : t) : t :=
  mk (id w) frame buffer (compositor_private w) (workspace w) (monitor w)
     (skip_taskbar w) (window_type_normal w)
     (_mosaicPositionCorrectionX w) (_mosaicPositionCorrectionY w)
     (_mosaicClipSignalId w) (_mosaicClipTimeoutId w) (pending_clip w).
Definition with_correction (cx cy : option Q) (w : t) : t :=
  mk (id w) (frame_rect w) (buffer_rect w) (compositor_private w) (workspace w)
     (monitor w) (skip_taskbar w) (window_type_normal w) cx cy
     (_mosaicClipSignalId w) (_mosaicClipTimeoutId w) (pending_clip w).
Definition with_clip_signal (sig : option Z) (w : t) : t :=
  mk (id w) (frame_rect w) (buffer_rect w) (compositor_private w) (workspace w)
     (monitor w) (skip_taskbar w) (window_type_normal w)
     (_mosaicPositionCorrectionX w) (_mosaicPositionCorrectionY w)
     sig (_mosaicClipTimeoutId w) (pending_clip w).
Definition with_clip_timeout (tmo : option Z) (w : t) : t :=
  mk (id w) (frame_rect w) (buffer_rect w) (compositor_private w) (workspace w)
     (monitor w) (skip_taskbar w) (window_type_normal w)
     (_mosaicPositionCorrectionX w) (_mosaicPositionCorrectionY w)
     (_mosaicClipSignalId w) tmo (pending_clip w).
Definition with_pending_clip (p : option (Rect.t * Viewport.t)) (w : t) : t :=
  mk (id w) (frame_rect w) (buffer_rect w) (compositor_private w) (workspace w)
     (monitor w) (skip_taskbar w) (window_type_normal w)
     (_mosaicPositionCorrectionX w) (_mosaicPositionCorrectionY w)
     (_mosaicClipSignalId w) (_mosaicClipTimeoutId w) p.
End MetaWindow.

(** Calls into the external tiler. *)
Inductive TilerCall : Type :=
| TileWindow (window : Z) (reason : string)
| TileWorkspace (workspace_index : Z) (monitor : Z).

(** What lies outside the manager: the live windows (by id), the windows
    the active workspace lists, the calls made to the tiler, and the
    main loop's sources (timeouts and signal handlers get fresh ids;
    removed ones are remembered). *)
Module Shell.
Record t : Type := mk {
  windows : gmap Z MetaWindow.t;
  active_workspace_windows : list Z;
  tiler_calls : list TilerCall;
  next_source_id : Z;
  removed_sources : list Z }.

Definition with_windows (ws : gmap Z MetaWindow.t) (s : t) : t :=
  mk ws (active_workspace_windows s) (tiler_calls s) (next_source_id s)
     (removed_sources s).
Definition call_tiler (c : TilerCall) (s : t) : t :=
  mk (windows s) (active_workspace_windows s) (tiler_calls s ++ [c])
     (next_source_id s) (removed_sources s).
(** [GLib.timeout_add] and [connect]: a fresh id. *)
Definition add_source (s : t) : Z * t :=
  (next_source_id s,
   mk (windows s) (active_workspace_windows s) (tiler_calls s)
      (next_source_id s + 1)%Z (removed_sources s)).
(** [GLib.source_remove] and [disconnect]. *)
Definition remove_source (i : Z) (s : t) : t :=
  mk (windows s) (active_workspace_windows s) (tiler_calls s)
     (next_source_id s) (i :: removed_sources s).
End Shell.

(** ** CanvasState and the manager's fields *)

Module CanvasState.
Record t : Type := mk {
  workArea : Rect.t;
  monitorIndex : Z;
  workspace : Workspace.t;
  viewportX : Q;
  currentPhase : Z }.

Definition with_viewportX (v : Q) (s : t) : t :=
  mk (workArea s) (monitorIndex s) (workspace s) v (currentPhase s).
End CanvasState.

Module Manager.
Record t : Type := mk {
  has_tile_manager : bool;          (* this._extension && this._extension._tileManager *)
  _canvasStates : gmap (Z * Z) CanvasState.t;
  _scrollAnimationId : option Z;
  _scrollOffset : Q;
  _scrollStep : Q;
  _clippedWindows : gset Z;
  _tilingManager : bool }.

Definition with_canvasStates (cs : gmap (Z * Z) CanvasState.t) (m : t) : t :=
  mk (has_tile_manager m) cs (_scrollAnimationId m) (_scrollOffset m)
     (_scrollStep m) (_clippedWindows m) (_tilingManager m).
Definition with_scrollOffset (o : Q) (m : t) : t :=
  mk (has_tile_manager m) (_canvasStates m) (_scrollAnimationId m) o
     (_scrollStep m) (_clippedWindows m) (_tilingManager m).
Definition with_clippedWindows (c : gset Z) (m : t) : t :=
  mk (has_tile_manager m) (_canvasStates m) (_scrollAnimationId m) (_scrollOffset m)
     (_scrollStep m) c (_tilingManager m).
Definition setTilingManager (present : bool) (m : t) : t :=
  mk (has_tile_manager m) (_canvasStates m) (_scrollAnimationId m) (_scrollOffset m)
     (_scrollStep m) (_clippedWindows m) present.

(** The constructor. *)
Definition new (extension_has_tile_manager : bool) : t :=
  mk extension_has_tile_manager ∅ None 0 20 ∅ false.
End Manager.

(** ** TileInfo *)

Module WindowDesc.
Record t : Type := mk { id : Z; targetX : Q; targetY : Q; width : Q; height : Q }.
End WindowDesc.

Module Level.
Record t : Type := mk { windows : option (list WindowDesc.t) }.
End Level.

Module TileInfo.
Record t : Type := mk { levels : option (list Level.t) }.
End TileInfo.

(** ** windowState.js

    The module keeps a [WeakMap] from window objects to plain objects
    used as property bags.  Windows are identified by their id; a bag is
    a finite map of its own properties, over the names the callers pass
    (their string literals such as ["workspaceSignalId"]); what a plain
    object inherits from [Object.prototype] is outside the model. *)

Inductive JsValue : Type :=
| Undefined
| Num (n : Q)
| Bool (b : bool)
| Str (s : string).

Module WindowState.

Abbreviation bag := (gmap string JsValue).
Abbreviation store := (gmap Z (gmap string JsValue)).


Definition get (σ : store) (window : Z) (property : string) : JsValue :=
  match σ !! window with
  | Some state => default Undefined (state !! property)
  | None => Undefined
  end.

Definition set (σ : store) (window : Z) (property : string) (value : JsValue) : store :=
  match σ !! window with
  | Some state => <[window := <[property := value]> state]> σ
  | None => <[window := <[property := value]> (∅ : bag)]> σ
  end.

Definition has (σ : store) (window : Z) (property : string) : bool :=
  match σ !! window with
  | Some state => bool_decide (is_Some (state !! property))
  | None => false
  end.

Definition remove (σ : store) (window : Z) (property : string) : store :=
  match σ !! window with
  | Some state => <[window := delete property state]> σ
  | None => σ
  end.

Definition getState (σ : store) (window : Z) : option bag := σ !! window.

Definition clear (σ : store) (window : Z) : store := delete window σ.

(** The calls that change the store, and a sequence of them. *)
Inductive call : Type :=
| Set_ (window : Z) (property : string) (value : JsValue)
| Remove (window : Z) (property : string)
| Clear (window : Z).





End WindowState.

(** ** Viewport bounds *)

Module Bounds.
Record t : Type := mk { left : Q; right : Q; top : Q; bottom : Q }.
End Bounds.

(** ** windowHandler.js

    The handler keeps its per-window facts in [WindowState] and hangs
    signal handlers on the window objects.  [connections] lists the
    handlers that are connected, as (window, handler id, signal);
    handler ids come from one counter, as GObject hands them out.
    [computedLayouts] is the id set of the layout cache of the tiler
    ([ComputedLayouts], a [Map] keyed by window id, of which only
    [delete] is used here).  What the handler asks of the managers
    around it is recorded in [calls]; timeouts it arms are recorded in
    [timeouts] with what their closures capture. *)

Module WindowHandler.

(** Truthiness of a value, as [if (v)] and [v || w] test it. *)
Definition truthy (v : JsValue) : bool :=
  match v with
  | Undefined => false
  | Num n => negb (Qeq_bool n 0)
  | Bool b => b
  | Str s => negb (String.eqb s EmptyString)
  end.

(** [v || false] *)
Definition or_false (v : JsValue) : JsValue := if truthy v then v else Bool false.

(** [v === b] for a boolean [b]. *)
Definition strict_eq_bool (v : JsValue) (b : bool) : bool :=
  match v with
  | Bool b' => Bool.eqb b' b
  | _ => false
  end.

Inductive ManagerCall : Type :=
| TryRestoreWindowSizes (workspace : option Z) (monitor : Z) (freedWidth freedHeight : Q)
| TileWorkspaceWindows (workspace : option Z) (window : option Z) (monitor : Z)
| TryFitWithResize (window : Z)
| MoveOversizedWindow (window : Z).

(** The closures handed to [GLib.timeout_add]. *)
Inductive Timeout : Type :=
| RetileWithout (window : Z) (workspace : option Z) (monitor : Z) (freedWidth freedHeight : Q)
| IncludeArrival (window : Z) (workspace : option Z) (monitor : Z)
| PollForFit (window : Z) (initialWorkspaceIndex : Z).

Record t : Type := mk {
  states : gmap Z (gmap string JsValue);
  connections : list (Z * Z * string);
  next_handler_id : Z;
  computedLayouts : gset Z;
  timeouts : list Timeout;
  calls : list ManagerCall }.

Definition with_states (σ : gmap Z (gmap string JsValue)) (h : t) : t :=
  mk σ (connections h) (next_handler_id h) (computedLayouts h) (timeouts h) (calls h).

(** [window.connect(signal, callback)] *)
Definition connect (window : Z) (signal : string) (h : t) : Z * t :=
  (next_handler_id h,
   mk (states h) (connections h ++ [(window, next_handler_id h, signal)])
      (next_handler_id h + 1)%Z (computedLayouts h) (timeouts h) (calls h)).

(** [window.disconnect(signalId)] for a stored handler id. *)
Definition disconnect (window : Z) (signalId : JsValue) (h : t) : t :=
  match signalId with
  | Num n =>
      mk (states h)
         (filter (fun c => negb ((c.1.1 =? window)%Z && Qeq_bool (inject_Z c.1.2) n))
                 (connections h))
         (next_handler_id h) (computedLayouts h) (timeouts h) (calls h)
  | _ => h
  end.

Definition timeout_add (c : Timeout) (h : t) : t :=
  mk (states h) (connections h) (next_handler_id h) (computedLayouts h)
     (timeouts h ++ [c]) (calls h).

Definition call (c : ManagerCall) (h : t) : t :=
  mk (states h) (connections h) (next_handler_id h) (computedLayouts h)
     (timeouts h) (calls h ++ [c]).

Definition delete_layout (window : Z) (h : t) : t :=
  mk (states h) (connections h) (next_handler_id h) (computedLayouts h ∖ {[window]})
     (timeouts h) (calls h).

(** [if (!WindowState.has(window, key)) { id = window.connect(signal, ...);
    WindowState.set(window, key, id) }] *)
Definition connect_once (window : Z) (key signal : string) (h : t) : t :=
  if negb (WindowState.has (states h) window key) then
    let '(signalId, h) := connect window signal h in
    with_states (WindowState.set (states h) window key (Num (inject_Z signalId))) h
  else h.

(** [isExcluded] is the answer of the windowing manager for the window,
    [workspace] the index of [window.get_workspace()] if there is one. *)
Definition connectWindowSignals (window : Z) (isExcluded : bool) (workspace : option Z)
    (h : t) : t :=
  let h := connect_once window "workspaceSignalId" "workspace-changed" h in
  let h := connect_once window "aboveSignalId" "notify::above" h in
  let h := connect_once window "stickySignalId" "notify::on-all-workspaces" h in
  let h := connect_once window "positionSignalId" "position-changed" h in
  let h := connect_once window "sizeSignalId" "size-changed" h in
  let currentExclusion := isExcluded in
  let h :=
    with_states (WindowState.set (states h) window "previousExclusionState"
                                 (Bool currentExclusion)) h in
  match workspace with
  | Some index =>
      with_states (WindowState.set (states h) window "previousWorkspace"
                                   (Num (inject_Z index))) h
  | None => h
  end.

(** [signalId = WindowState.get(window, key); if (signalId) {
    window.disconnect(signalId); WindowState.remove(window, key) }] *)
Definition disconnect_stored (window : Z) (key : string) (h : t) : t :=
  let signalId := WindowState.get (states h) window key in
  if truthy signalId then
    let h := disconnect window signalId h in
    with_states (WindowState.remove (states h) window key) h
  else h.

Definition disconnectWindowSignals (window : Z) (h : t) : t :=
  let h := disconnect_stored window "workspaceSignalId" h in
  let h := disconnect_stored window "positionSignalId" h in
  let h := disconnect_stored window "sizeSignalId" h in
  let h := disconnect_stored window "aboveSignalId" h in
  let stickySignalId := WindowState.get (states h) window "stickySignalId" in
  let h :=
    if truthy stickySignalId
    then with_states (WindowState.remove (states h) window "stickySignalId") h
    else h in
  let h := delete_layout window h in
  let h := with_states (WindowState.remove (states h) window "previousExclusionState") h in
  with_states (WindowState.remove (states h) window "previousWorkspace") h.

(** The part of [handleExclusionStateChange] that runs at once; the
    rest is left to the timeout it arms. *)
Definition handleExclusionStateChange (window : Z) (isNowExcluded : bool)
    (workspace : option Z) (monitor : Z) (frame : Rect.t) (h : t) : t :=
  let wasExcluded := or_false (WindowState.get (states h) window "previousExclusionState") in
  let h :=
    with_states (WindowState.set (states h) window "previousExclusionState"
                                 (Bool isNowExcluded)) h in
  if strict_eq_bool wasExcluded isNowExcluded then h
  else if isNowExcluded then
    let freedWidth := Rect.width frame in
    let freedHeight := Rect.height frame in
    timeout_add (RetileWithout window workspace monitor freedWidth freedHeight) h
  else timeout_add (IncludeArrival window workspace monitor) h.

(** The timeout armed when a window became excluded.  [workArea] is
    what [calculateRemainingSpace] answers. *)
Definition retile_without (workspace : option Z) (monitor : Z) (freedWidth freedHeight : Q)
    (workArea : option Rect.t) (h : t) : t :=
  let h :=
    match workArea with
    | Some _ => call (TryRestoreWindowSizes workspace monitor freedWidth freedHeight) h
    | None => h
    end in
  call (TileWorkspaceWindows workspace None monitor) h.

(** The timeout armed when a window became included.  [canFit] and
    [resizeSuccess] are the answers of [canFitWindow] and
    [tryFitWithResize].  A workspace is known by its index; without a
    workspace [workspace.index()] throws, which ends the closure before
    it arms the poll. *)
Definition include_arrival (window : Z) (workspace : option Z) (monitor : Z)
    (workArea : option Rect.t) (canFit resizeSuccess : bool) (h : t) : t :=
  match workArea with
  | None => h
  | Some _ =>
      if canFit then
        let h :=
          with_states (WindowState.set (states h) window "justReturnedFromExclusion"
                                       (Bool true)) h in
        call (TileWorkspaceWindows workspace (Some window) monitor) h
      else
        let h := call (TryFitWithResize window) h in
        if resizeSuccess then
          let h :=
            with_states (WindowState.set (states h) window "isSmartResizing" (Bool true)) h in
          match workspace with
          | Some initialWorkspaceIndex => timeout_add (PollForFit window initialWorkspaceIndex) h
          | None => h
          end
        else call (MoveOversizedWindow window) h
  end.

Definition MAX_ATTEMPTS : Z := 12.

(** One firing of [pollForFit].  [current] is the index of the
    workspace the window is on now, if any; [canFitNow] the answer of
    [canFitWindow].  The result says whether the timeout goes on
    ([GLib.SOURCE_CONTINUE]). *)
Definition pollForFit (window : Z) (workspace : option Z) (monitor : Z)
    (initialWorkspaceIndex : Z) (current : option Z) (canFitNow : bool)
    (st : Z * t) : bool * (Z * t) :=
  let '(attempts, h) := st in
  if negb (bool_decide (current = Some initialWorkspaceIndex)) then
    (false,
     (attempts,
      with_states (WindowState.set (states h) window "isSmartResizing" (Bool false)) h))
  else
    let attempts := (attempts + 1)%Z in
    if canFitNow then
      let h :=
        with_states (WindowState.set (states h) window "isSmartResizing" (Bool false)) h in
      let h :=
        with_states (WindowState.set (states h) window "justReturnedFromExclusion"
                                     (Bool true)) h in
      (false, (attempts, call (TileWorkspaceWindows workspace (Some window) monitor) h))
    else if (MAX_ATTEMPTS <=? attempts)%Z then
      let h :=
        with_states (WindowState.set (states h) window "isSmartResizing" (Bool false)) h in
      (false, (attempts, call (MoveOversizedWindow window) h))
    else (true, (attempts, call (TryFitWithResize window) h)).

(** The timeout fires again and again, with the answers it finds each
    time, until a firing ends it. *)
Fixpoint poll (window : Z) (workspace : option Z) (monitor : Z) (initialWorkspaceIndex : Z)
    (answers : list (option Z * bool)) (st : Z * t) : bool * (Z * t) :=
  match answers with
  | [] => (true, st)
  | (current, canFitNow) :: rest =>
      match pollForFit window workspace monitor initialWorkspaceIndex current canFitNow st with
      | (true, st') => poll window workspace monitor initialWorkspaceIndex rest st'
      | (false, st') => (false, st')
      end
  end.

End WindowHandler.

(** ** dragHandler.js

    The extension's [_edgeTileGhostWindows] array, the windows it
    refers to, and the windows handed to [moveOversizedWindow]. *)

Module DragHandler.

Record t : Type := mk {
  _edgeTileGhostWindows : list Z;
  windows : gmap Z MetaWindow.t;
  moved_to_overflow : list Z }.

(** [actor = win.get_compositor_private(); if (actor) actor.opacity = 255] *)
Definition restore_opacity (win : Z) (windows : gmap Z MetaWindow.t) : gmap Z MetaWindow.t :=
  match windows !! win with
  | Some w =>
      match MetaWindow.compositor_private w with
      | Some actor => <[win := MetaWindow.with_actor (Some (Actor.set_opacity 255 actor)) w]> windows
      | None => windows
      end
  | None => windows
  end.

Definition clearGhostWindows (d : t) : t :=
  mk [] (fold_left (fun ws win => restore_opacity win ws) (_edgeTileGhostWindows d) (windows d))
     (moved_to_overflow d).

Definition moveGhostWindowsToOverflow (d : t) : t :=
  match _edgeTileGhostWindows d with
  | [] => d
  | ghosts =>
      let d' :=
        fold_left
          (fun (acc : gmap Z MetaWindow.t * list Z) win =>
             (restore_opacity win acc.1, acc.2 ++ [win]))
          ghosts (windows d, moved_to_overflow d) in
      mk [] d'.1 d'.2
  end.

End DragHandler.

(** ** constants.js *)


(** ** Layout phases *)

Module CanvasPhase.
Definition PHASE_1 : Z := 1.
End CanvasPhase.





(** ** Concrete inputs

    A 1280x720 work area at the origin, two windows with actors, and
    tile information placing one window inside the viewport and one to
    its left. *)

Module Sample.

Definition workArea : Rect.t := Rect.mk 0 0 1280 720.
Definition workspace : Workspace.t := Workspace.mk 0 (fun _ => workArea).
Definition viewport : Viewport.t := Viewport.mk 0 1280.

(** An actor left clipped and translated by an earlier pass. *)
Definition actor : Actor.t :=
  Actor.mk 255 90 40 (-30) 0 0 (Some (Rect.mk 10 0 200 300)) true false.

Definition window (id : Z) (x : Q) : MetaWindow.t :=
  MetaWindow.mk id (Rect.mk x 50 400 300) (Rect.mk (x - 10) 40 420 320) (Some actor)
                workspace 0 false true (Some 7) (Some 7) None None None.

Definition shell : Shell.t :=
  Shell.mk (<[1%Z := window 1 100]> (<[2%Z := window 2 600]> ∅)) [1%Z; 2%Z] [] 1 [].

Definition target_inside : Rect.t := Rect.mk (201 # 2) 50 400 300.
Definition target_left : Rect.t := Rect.mk (-300) 50 400 300.
Definition target_right : Rect.t := Rect.mk 1000 50 400 300.

Definition tileInfo : option TileInfo.t :=
  Some (TileInfo.mk (Some [Level.mk (Some [WindowDesc.mk 1 100 50 400 300;
                                            WindowDesc.mk 2 (-300) (21 # 2) 400 300])])).

(** A window system that grants every request, and one that grants
    those for window 1 and keeps every other window pinned at x = 600. *)
Definition obedient (w : MetaWindow.t) (request : Rect.t) : Rect.t * Rect.t :=
  (request,
   Rect.mk (Rect.x request - 10) (Rect.y request - 10)
           (Rect.width request + 20) (Rect.height request + 20)).

Definition partial (w : MetaWindow.t) (request : Rect.t) : Rect.t * Rect.t :=
  if (MetaWindow.id w =? 1)%Z then obedient w request
  else (Rect.mk 600 50 400 300, Rect.mk 590 40 420 320).




Definition scrolling : Manager.t := Manager.mk false ∅ (Some 9%Z) 0 20 ∅ true.

(** A window handler that has connected nothing yet. *)
Definition handler : WindowHandler.t := WindowHandler.mk ∅ [] 1 ∅ [] [].

End Sample.

Section Canvas.

Set Default Proof Using "Type".

(** [constants.js] as shipped does not define the constants of the
    extended canvas; they are parameters of the development.  The
    class documentation speaks of a 200% canvas that extends 50% to
    each side, that is 2, 1/2 and 1/2. *)
Variable CANVAS_EXPANSION_RATIO : Q.
Variable CANVAS_PAN_LEFT : Q.
Variable CANVAS_PAN_RIGHT : Q.
Variable VIEWPORT_SCROLL_DURATION_MS : Q.

(** *** calculatePhase *)



(** *** getEffectiveWorkArea *)



(** *** _clampViewportX *)


(** *** scrollLeft, scrollRight and _requestRetile

    [_requestRetile] asks the extension's tile manager, when there is
    one, to tile around the first normal window of the active
    workspace that is not skipped by the taskbar.  The file does not
    import [Meta]; [Meta.WindowType.NORMAL] is read from the ambient
    scope. *)

Definition retile_candidates (sh : Shell.t) : list MetaWindow.t :=
  filter (fun w => negb (MetaWindow.skip_taskbar w) && MetaWindow.window_type_normal w)
         (omap (fun i => Shell.windows sh !! i) (Shell.active_workspace_windows sh)).

Definition _requestRetile (m : Manager.t) (sh : Shell.t) : Shell.t :=
  if Manager.has_tile_manager m then
    match retile_candidates sh with
    | w :: _ => Shell.call_tiler (TileWindow (MetaWindow.id w) "scroll") sh
    | [] => sh
    end
  else sh.

Definition scrollLeft (m : Manager.t) (sh : Shell.t) : Manager.t * Shell.t :=
  let m := Manager.with_scrollOffset (Manager._scrollOffset m - Manager._scrollStep m) m in
  (m, _requestRetile m sh).

Definition scrollRight (m : Manager.t) (sh : Shell.t) : Manager.t * Shell.t :=
  let m := Manager.with_scrollOffset (Manager._scrollOffset m + Manager._scrollStep m) m in
  (m, _requestRetile m sh).

(** The two shortcuts, and a sequence of presses. *)
Inductive ScrollKey : Type := KeyLeft | KeyRight.

Definition scroll_key (st : Manager.t * Shell.t) (k : ScrollKey) : Manager.t * Shell.t :=
  match k with
  | KeyLeft => scrollLeft (fst st) (snd st)
  | KeyRight => scrollRight (fst st) (snd st)
  end.

Definition scroll_keys (keys : list ScrollKey) (st : Manager.t * Shell.t)
    : Manager.t * Shell.t :=
  fold_left scroll_key keys st.

(** Presses to the right minus presses to the left. *)
Fixpoint net_steps (keys : list ScrollKey) : Z :=
  match keys with
  | [] => 0
  | KeyLeft :: rest => (net_steps rest - 1)%Z
  | KeyRight :: rest => (net_steps rest + 1)%Z
  end.

(** *** applyViewportClip *)

Definition applyViewportClip (m : Manager.t) (metaWindow : MetaWindow.t)
    (targetPos : Rect.t) (viewport : Viewport.t) : Manager.t * MetaWindow.t * Pos.t :=
  match MetaWindow.compositor_private metaWindow with
  | None => (m, metaWindow, Pos.mk (Rect.x targetPos) (Rect.y targetPos))
  | Some actor =>
    let actor :=
      if negb (Js.strict_eq (Actor.opacity actor) 255)
      then Actor.set_opacity 255 actor else actor in
    let windowId := MetaWindow.id metaWindow in
    let bufferRect := MetaWindow.buffer_rect metaWindow in
    let frameRect := MetaWindow.frame_rect metaWindow in
    let offsetX := Rect.x frameRect - Rect.x bufferRect in
    let offsetY := Rect.y frameRect - Rect.y bufferRect in
    let expectedActorX := Rect.x bufferRect in
    let expectedActorY := Rect.y bufferRect in
    let currentActorX := Js.Math_round (Actor.x actor) in
    let currentActorY := Js.Math_round (Actor.y actor) in
    let currentTransX := Actor.translation_x actor in
    let currentTransY := Actor.translation_y actor in
    let visualX := currentActorX + Js.Math_round currentTransX in
    let visualY := currentActorY + Js.Math_round currentTransY in
    let actor :=
      if Js.gtb (Js.Math_abs (visualX - expectedActorX)) 1
         || Js.gtb (Js.Math_abs (visualY - expectedActorY)) 1
      then Actor.set_position expectedActorX expectedActorY
             (Actor.set_translation 0 0 0 (Actor.remove_all_transitions actor))
      else actor in
    let targetFrameLeft := Js.Math_floor (Rect.x targetPos + Manager._scrollOffset m) in
    let targetFrameRight := targetFrameLeft + Js.Math_floor (Rect.width targetPos) in
    let viewportLeft := Js.Math_floor (Viewport.x viewport) in
    let viewportRight := Js.Math_floor (Viewport.x viewport + Viewport.width viewport) in
    let clampedFrameX :=
      if Js.ltb targetFrameLeft viewportLeft then viewportLeft else targetFrameLeft in
    let translationX := targetFrameLeft - clampedFrameX in
    if Js.strict_eq translationX 0 && Js.leb targetFrameRight viewportRight then
      let actor :=
        Actor.set_translation 0 0 0
          (Actor.remove_clip (Actor.remove_all_transitions actor)) in
      let correctActorX := Rect.x frameRect - offsetX in
      let correctActorY := Rect.y frameRect - offsetY in
      let actor :=
        if Js.gtb (Js.Math_abs (Actor.x actor - correctActorX)) 1
           || Js.gtb (Js.Math_abs (Actor.y actor - correctActorY)) 1
        then Actor.set_position correctActorX correctActorY actor
        else actor in
      (Manager.with_clippedWindows (Manager._clippedWindows m ∖ {[windowId]}) m,
       MetaWindow.with_actor (Some actor) metaWindow,
       Pos.mk targetFrameLeft (Rect.y targetPos))
    else
      let logicalActorX := clampedFrameX - offsetX in
      let visualActorX := logicalActorX + translationX in
      let actorWidth := Rect.width bufferRect in
      let actorHeight := Rect.height bufferRect in
      let visibleLeft := Js.Math_max visualActorX viewportLeft in
      let visibleRight := Js.Math_min (visualActorX + actorWidth) viewportRight in
      let clipX := visibleLeft - visualActorX in
      let clipWidth := visibleRight - visibleLeft in
      let clipX := Js.Math_floor (Js.Math_max 0 clipX) in
      let clipWidth := Js.Math_floor (Js.Math_min clipWidth (actorWidth - clipX)) in
      let '(actor, m) :=
        if Js.leb clipWidth 0 then (Actor.set_clip 0 0 0 0 actor, m)
        else if Js.geb clipWidth actorWidth && Js.strict_eq clipX 0
        then (Actor.remove_clip actor, m)
        else (Actor.set_clip clipX 0 clipWidth actorHeight actor,
              Manager.with_clippedWindows ({[windowId]} ∪ Manager._clippedWindows m) m) in
      let expectedBaseX := Rect.x bufferRect in
      let expectedBaseY := Rect.y bufferRect in
      let currentBaseX := Actor.x actor in
      let currentBaseY := Actor.y actor in
      let actor :=
        if Js.gtb (Js.Math_abs (currentBaseX - expectedBaseX)) 1
           || Js.gtb (Js.Math_abs (currentBaseY - expectedBaseY)) 1
        then Actor.set_position expectedBaseX expectedBaseY
               (Actor.remove_all_transitions actor)
        else actor in
      let positionCorrectionX := Js.or_zero (MetaWindow._mosaicPositionCorrectionX metaWindow) in
      let positionCorrectionY := Js.or_zero (MetaWindow._mosaicPositionCorrectionY metaWindow) in
      let finalTranslationX := translationX + positionCorrectionX in
      let finalTranslationY := positionCorrectionY in
      let actor := Actor.set_translation finalTranslationX finalTranslationY 0 actor in
      let actor := Actor.queue_relayout actor in
      (m, MetaWindow.with_actor (Some actor) metaWindow,
       Pos.mk clampedFrameX (Rect.y targetPos))
  end.

(** *** getCanvasState, _applyViewport, scrollTo *)

Definition getCanvasState (m : Manager.t) (monitorIndex : Z) (workspace : Workspace.t)
    : Manager.t * CanvasState.t :=
  let key := (Workspace.index workspace, monitorIndex) in
  match Manager._canvasStates m !! key with
  | Some state => (m, state)
  | None =>
      let workArea := Workspace.get_work_area_for_monitor workspace monitorIndex in
      let state := CanvasState.mk workArea monitorIndex workspace 0 CanvasPhase.PHASE_1 in
      (Manager.with_canvasStates (<[key := state]> (Manager._canvasStates m)) m, state)
  end.

Definition _applyViewport (m : Manager.t) (state : CanvasState.t) (sh : Shell.t)
    : Manager.t * Shell.t :=
  let m := Manager.with_scrollOffset (CanvasState.viewportX state) m in
  if Manager._tilingManager m then
    (m, Shell.call_tiler
          (TileWorkspace (Workspace.index (CanvasState.workspace state))
                         (CanvasState.monitorIndex state)) sh)
  else (m, sh).








(** *** isWindowFullyVisible, isWindowPartiallyVisible *)

Definition isWindowFullyVisible (m : Manager.t) (metaWindow : option MetaWindow.t)
    : Manager.t * bool :=
  match metaWindow with
  | None => (m, false)
  | Some metaWindow =>
      let workspace := MetaWindow.workspace metaWindow in
      let monitorIndex := MetaWindow.monitor metaWindow in
      let '(m, state) := getCanvasState m monitorIndex workspace in
      let windowFrame := MetaWindow.frame_rect metaWindow in
      let workArea := Workspace.get_work_area_for_monitor workspace monitorIndex in
      let windowLeft := Rect.x windowFrame in
      let windowRight := Rect.x windowFrame + Rect.width windowFrame in
      let viewportLeft := Rect.x workArea + CanvasState.viewportX state in
      let viewportRight := viewportLeft + Rect.width workArea in
      (m, Js.geb windowLeft viewportLeft && Js.leb windowRight viewportRight)
  end.

Definition isWindowPartiallyVisible (m : Manager.t) (metaWindow : option MetaWindow.t)
    : Manager.t * bool :=
  match metaWindow with
  | None => (m, false)
  | Some metaWindow =>
      let workspace := MetaWindow.workspace metaWindow in
      let monitorIndex := MetaWindow.monitor metaWindow in
      let '(m, state) := getCanvasState m monitorIndex workspace in
      let windowFrame := MetaWindow.frame_rect metaWindow in
      let workArea := Workspace.get_work_area_for_monitor workspace monitorIndex in
      let windowLeft := Rect.x windowFrame in
      let windowRight := Rect.x windowFrame + Rect.width windowFrame in
      let viewportLeft := Rect.x workArea + CanvasState.viewportX state in
      let viewportRight := viewportLeft + Rect.width workArea in
      let overlaps := Js.ltb windowLeft viewportRight && Js.gtb windowRight viewportLeft in
      let fullyInside := Js.geb windowLeft viewportLeft && Js.leb windowRight viewportRight in
      (m, overlaps && negb fullyInside)
  end.

(** *** updateWindowPositions

    The window system answers a move request as it pleases:
    [window_system w request] is the frame and buffer rectangle the
    window has afterwards. *)

Variable window_system : MetaWindow.t -> Rect.t -> Rect.t * Rect.t.

Definition move_resize_frame (w : MetaWindow.t) (x y width height : Q) : MetaWindow.t :=
  let '(frame, buffer) := window_system w (Rect.mk x y width height) in
  MetaWindow.with_geometry frame buffer w.

Definition targetPositions_of (tileInfo : option TileInfo.t) : gmap Z Rect.t :=
  match tileInfo with
  | Some (TileInfo.mk (Some levels)) =>
      fold_left
        (fun targetPositions level =>
           fold_left
             (fun targetPositions windowDesc =>
                <[WindowDesc.id windowDesc :=
                    Rect.mk (WindowDesc.targetX windowDesc) (WindowDesc.targetY windowDesc)
                            (WindowDesc.width windowDesc) (WindowDesc.height windowDesc)]>
                  targetPositions)
             (default [] (Level.windows level)) targetPositions)
        levels ∅
  | _ => ∅
  end.

(** Disconnect the pending signal handler and remove the pending
    timeout of a window, if any. *)
Definition cancel_pending_clip (w : MetaWindow.t) (sh : Shell.t) : MetaWindow.t * Shell.t :=
  let '(w, sh) :=
    match MetaWindow._mosaicClipSignalId w with
    | Some sig => (MetaWindow.with_clip_signal None w, Shell.remove_source sig sh)
    | None => (w, sh)
    end in
  match MetaWindow._mosaicClipTimeoutId w with
  | Some tmo => (MetaWindow.with_clip_timeout None w, Shell.remove_source tmo sh)
  | None => (w, sh)
  end.

(** The body of the loop over [windows]. *)
Definition positionWindow (controlPositioning : bool) (viewport : Viewport.t)
    (targetPositions : gmap Z Rect.t) (st : Manager.t * Shell.t) (ref : Z)
    : Manager.t * Shell.t :=
  let '(m, sh) := st in
  match Shell.windows sh !! ref with
  | None => st
  | Some metaWindow =>
    let windowId := MetaWindow.id metaWindow in
    match targetPositions !! windowId with
    | None => st
    | Some targetPos =>
      if controlPositioning then
        let targetFrameLeft := Js.Math_floor (Rect.x targetPos + Manager._scrollOffset m) in
        let viewportLeft := Js.Math_floor (Viewport.x viewport) in
        let adjustedX :=
          if Js.ltb targetFrameLeft viewportLeft then viewportLeft else targetFrameLeft in
        let metaWindow :=
          match MetaWindow.compositor_private metaWindow with
          | Some actor =>
              MetaWindow.with_actor (Some (Actor.remove_all_transitions actor)) metaWindow
          | None => metaWindow
          end in
        let metaWindow :=
          move_resize_frame metaWindow adjustedX (Rect.y targetPos)
                            (Rect.width targetPos) (Rect.height targetPos) in
        let frameAfter := MetaWindow.frame_rect metaWindow in
        let positionDeltaX := adjustedX - Rect.x frameAfter in
        let positionDeltaY := Js.Math_floor (Rect.y targetPos) - Rect.y frameAfter in
        let metaWindow :=
          if Js.gtb (Js.Math_abs positionDeltaX) 2 || Js.gtb (Js.Math_abs positionDeltaY) 2
          then MetaWindow.with_correction (Some positionDeltaX) (Some positionDeltaY) metaWindow
          else MetaWindow.with_correction (Some 0) (Some 0) metaWindow in
        let '(metaWindow, sh) := cancel_pending_clip metaWindow sh in
        let '(sig, sh) := Shell.add_source sh in
        let metaWindow :=
          MetaWindow.with_clip_signal (Some sig)
            (MetaWindow.with_pending_clip (Some (targetPos, viewport)) metaWindow) in
        let '(tmo, sh) := Shell.add_source sh in
        let metaWindow := MetaWindow.with_clip_timeout (Some tmo) metaWindow in
        (m, Shell.with_windows (<[ref := metaWindow]> (Shell.windows sh)) sh)
      else
        let metaWindow :=
          match MetaWindow.compositor_private metaWindow with
          | Some actor => MetaWindow.with_actor (Some (Actor.remove_clip actor)) metaWindow
          | None => metaWindow
          end in
        (Manager.with_clippedWindows (Manager._clippedWindows m ∖ {[windowId]}) m,
         Shell.with_windows (<[ref := metaWindow]> (Shell.windows sh)) sh)
    end
  end.

Definition updateWindowPositions (windows : option (list Z)) (workspace : Workspace.t)
    (monitorIndex : Z) (tileInfo : option TileInfo.t) (workArea : option Rect.t)
    (controlPositioning : bool) (st : Manager.t * Shell.t) : Manager.t * Shell.t :=
  match windows with
  | None => st
  | Some [] => st
  | Some windows =>
      let targetPositions := targetPositions_of tileInfo in
      let actualWorkArea :=
        default (Workspace.get_work_area_for_monitor workspace monitorIndex) workArea in
      let viewport := Viewport.mk (Rect.x actualWorkArea) (Rect.width actualWorkArea) in
      fold_left (positionWindow controlPositioning viewport targetPositions) windows st
  end.

Definition updateClones (windows : option (list Z)) (workspace : Workspace.t)
    (monitorIndex : Z) (tileInfo : option TileInfo.t) (st : Manager.t * Shell.t)
    : Manager.t * Shell.t :=
  updateWindowPositions windows workspace monitorIndex tileInfo None false st.


(** *** removeAllClips

    The actors are taken to be alive: the [catch] around the two actor
    calls, which swallows what a disposed actor throws, is not entered. *)

Definition removeAllClips (m : Manager.t) (sh : Shell.t) : Manager.t * Shell.t :=
  let windows := Shell.active_workspace_windows sh in
  let heap :=
    fold_left
      (fun (heap : gmap Z MetaWindow.t) ref =>
         match heap !! ref with
         | Some metaWindow =>
             match MetaWindow.compositor_private metaWindow with
             | Some actor =>
                 <[ref := MetaWindow.with_actor
                            (Some (Actor.set_translation 0 0 0 (Actor.remove_clip actor)))
                            metaWindow]> heap
             | None => heap
             end
         | None => heap
         end)
      windows (Shell.windows sh) in
  (Manager.with_scrollOffset 0 (Manager.with_clippedWindows ∅ m),
   Shell.with_windows heap sh).

(** *** ensureViewport

    The canvas state that [getCanvasState] hands out is the object kept
    in the registry; what [scrollTo] writes to it is stored back under
    its key.  The result carries the key and the armed animation, if
    any. *)


(** *** getViewportBounds, resetViewport *)

Definition getViewportBounds (m : Manager.t) (monitorIndex : Z) (workspace : Workspace.t)
    : Manager.t * Bounds.t :=
  let '(m, state) := getCanvasState m monitorIndex workspace in
  let workArea := Workspace.get_work_area_for_monitor workspace monitorIndex in
  (m, {| Bounds.left := Rect.x workArea + CanvasState.viewportX state;
         Bounds.right := Rect.x workArea + CanvasState.viewportX state + Rect.width workArea;
         Bounds.top := Rect.y workArea;
         Bounds.bottom := Rect.y workArea + Rect.height workArea |}).

Definition resetViewport (monitorIndex : Z) (workspace : Workspace.t)
    (st : Manager.t * Shell.t) : Manager.t * Shell.t :=
  let '(m, sh) := st in
  let '(m, state) := getCanvasState m monitorIndex workspace in
  let state := CanvasState.with_viewportX 0 state in
  let key := (Workspace.index workspace, monitorIndex) in
  let m := Manager.with_canvasStates (<[key := state]> (Manager._canvasStates m)) m in
  _applyViewport m state sh.

(** *** _calculateOutsideRatio *)


(** Two records of one window that differ at most in the actor's clip,
    which the second may have lost. *)
Definition same_but_clip (w w' : MetaWindow.t) : Prop :=
  MetaWindow.id w' = MetaWindow.id w /\
  MetaWindow.frame_rect w' = MetaWindow.frame_rect w /\
  MetaWindow.buffer_rect w' = MetaWindow.buffer_rect w /\
  MetaWindow._mosaicPositionCorrectionX w' = MetaWindow._mosaicPositionCorrectionX w /\
  MetaWindow._mosaicPositionCorrectionY w' = MetaWindow._mosaicPositionCorrectionY w /\
  MetaWindow._mosaicClipSignalId w' = MetaWindow._mosaicClipSignalId w /\
  MetaWindow._mosaicClipTimeoutId w' = MetaWindow._mosaicClipTimeoutId w /\
  MetaWindow.pending_clip w' = MetaWindow.pending_clip w /\
  (MetaWindow.compositor_private w' = MetaWindow.compositor_private w \/
   MetaWindow.compositor_private w' = Actor.remove_clip <$> MetaWindow.compositor_private w).

(** ** Comparisons *)

Lemma leb_true a b : Js.leb a b = true <-> a <= b.
Proof. unfold Js.leb. apply Qle_bool_iff. Qed.

Lemma leb_false a b : Js.leb a b = false <-> b < a.
Proof.
  unfold Js.leb. split.
  - intros H. apply Qnot_le_lt. intros Hle. apply Qle_bool_iff in Hle. congruence.
  - intros H. destruct (Qle_bool a b) eqn:E; [|reflexivity].
    apply Qle_bool_iff in E. lra.
Qed.

Lemma ltb_true a b : Js.ltb a b = true <-> a < b.
Proof.
  unfold Js.ltb. rewrite negb_true_iff. apply (leb_false b a).
Qed.

Lemma ltb_false a b : Js.ltb a b = false <-> b <= a.
Proof.
  unfold Js.ltb. rewrite negb_false_iff. apply (leb_true b a).
Qed.

Lemma strict_eq_true a b : Js.strict_eq a b = true <-> a == b.
Proof. unfold Js.strict_eq. apply Qeq_bool_iff. Qed.


(** ** The phase classifier *)









(** ** The effective work area *)


(** ** The viewport clamp *)



(** ** applyViewportClip *)

(** The requested left edge: the target's, moved to the viewport's
    when it lies before it. *)
Lemma clamped_left_cases (targetFrameLeft viewportLeft : Q) :
  let clampedFrameX :=
    if Js.ltb targetFrameLeft viewportLeft then viewportLeft else targetFrameLeft in
  (targetFrameLeft < viewportLeft /\ clampedFrameX = viewportLeft
   /\ Js.strict_eq (targetFrameLeft - clampedFrameX) 0 = false)
  \/ (viewportLeft <= targetFrameLeft /\ clampedFrameX = targetFrameLeft
      /\ Js.strict_eq (targetFrameLeft - clampedFrameX) 0 = true).
Proof.
  cbv zeta. destruct (Js.ltb targetFrameLeft viewportLeft) eqn:E.
  - left. apply ltb_true in E. repeat split; auto.
    destruct (Js.strict_eq (targetFrameLeft - viewportLeft) 0) eqn:E'; auto.
    apply strict_eq_true in E'. lra.
  - right. apply ltb_false in E. repeat split; auto.
    apply strict_eq_true. lra.
Qed.

Lemma applyViewportClip_position (m : Manager.t) (metaWindow : MetaWindow.t)
    (actor : Actor.t) (targetPos : Rect.t) (viewport : Viewport.t) :
  MetaWindow.compositor_private metaWindow = Some actor ->
  let targetFrameLeft := Js.Math_floor (Rect.x targetPos + Manager._scrollOffset m) in
  let viewportLeft := Js.Math_floor (Viewport.x viewport) in
  snd (applyViewportClip m metaWindow targetPos viewport) =
    Pos.mk (if Js.ltb targetFrameLeft viewportLeft then viewportLeft else targetFrameLeft)
           (Rect.y targetPos).
Proof.
  intros Hactor. cbv zeta. unfold applyViewportClip. rewrite Hactor. cbv zeta.
  destruct (clamped_left_cases
              (Js.Math_floor (Rect.x targetPos + Manager._scrollOffset m))
              (Js.Math_floor (Viewport.x viewport))) as [(Hlt & Hc & Hs)|(Hle & Hc & Hs)];
    cbv zeta in Hc, Hs; rewrite Hs; rewrite Hc.
  - cbn [andb]. 
    match goal with |- context [if Js.leb ?a 0 then _ else _] => destruct (Js.leb a 0) end;
      [reflexivity|].
    match goal with |- context [if ?c then (Actor.remove_clip _, _) else _] => destruct c end;
      reflexivity.
  - cbn [andb].
    match goal with |- context [if Js.leb ?a ?b then (_, _, _) else _] => destruct (Js.leb a b) end;
      [reflexivity|].
    match goal with |- context [if Js.leb ?a 0 then _ else _] => destruct (Js.leb a 0) end;
      [reflexivity|].
    match goal with |- context [if ?c then (Actor.remove_clip _, _) else _] => destruct c end;
      reflexivity.
Qed.

(** C1: with an actor, scroll offset 0 and a target whose floored left
    edge is not before the viewport's and whose right edge is not past
    the viewport's, [applyViewportClip] leaves the actor without clip
    and with zero translation, forgets the window in the clip
    tracking, and returns the floored target x and the target y. *)
Theorem applyViewportClip_inside_viewport (m : Manager.t) (metaWindow : MetaWindow.t)
    (actor : Actor.t) (targetPos : Rect.t) (viewport : Viewport.t) :
  MetaWindow.compositor_private metaWindow = Some actor ->
  Manager._scrollOffset m == 0 ->
  Js.Math_floor (Viewport.x viewport) <= Js.Math_floor (Rect.x targetPos) ->
  Js.Math_floor (Rect.x targetPos) + Js.Math_floor (Rect.width targetPos)
    <= Js.Math_floor (Viewport.x viewport + Viewport.width viewport) ->
  let '(m', metaWindow', returned) := applyViewportClip m metaWindow targetPos viewport in
  (exists actor',
      MetaWindow.compositor_private metaWindow' = Some actor' /\
      Actor.clip actor' = None /\
      Actor.translation_x actor' = 0 /\
      Actor.translation_y actor' = 0 /\
      Actor.translation_z actor' = 0) /\
  (MetaWindow.id metaWindow ∉ Manager._clippedWindows m') /\
  returned = Pos.mk (Js.Math_floor (Rect.x targetPos)) (Rect.y targetPos).
Proof.
  intros Hactor Hoff Hleft Hright.
  assert (Hfl : Js.Math_floor (Rect.x targetPos + Manager._scrollOffset m)
                = Js.Math_floor (Rect.x targetPos)).
  { unfold Js.Math_floor. f_equal. apply Qfloor_comp. rewrite Hoff. ring. }
  unfold applyViewportClip. rewrite Hactor. cbv zeta. rewrite Hfl.
  destruct (clamped_left_cases (Js.Math_floor (Rect.x targetPos))
              (Js.Math_floor (Viewport.x viewport))) as [(Hlt & _)|(_ & Hc & Hs)];
    [lra|].
  cbv zeta in Hc, Hs. rewrite Hs, Hc.
  apply leb_true in Hright. rewrite Hright. cbn [andb].
  split; [|split].
  - match goal with
    | |- context [MetaWindow.with_actor (Some (if ?c then _ else _)) _] => destruct c
    end; eexists; (split; [reflexivity|]); cbn; auto.
  - cbn. intros Hin. apply elem_of_difference in Hin as [_ Hn].
    apply Hn. now apply elem_of_singleton.
  - reflexivity.
Qed.

(** C2: with an actor, the x that [applyViewportClip] returns is never
    before the floored viewport x: it is the viewport's left edge when
    the offset target's left edge lies before it, and the offset
    target's left edge itself otherwise, whatever the right edge. *)
Theorem applyViewportClip_left_clamp_only (m : Manager.t) (metaWindow : MetaWindow.t)
    (actor : Actor.t) (targetPos : Rect.t) (viewport : Viewport.t) :
  MetaWindow.compositor_private metaWindow = Some actor ->
  let returned := snd (applyViewportClip m metaWindow targetPos viewport) in
  let targetLeft := Js.Math_floor (Rect.x targetPos + Manager._scrollOffset m) in
  let viewportLeft := Js.Math_floor (Viewport.x viewport) in
  viewportLeft <= Pos.x returned /\
  (targetLeft < viewportLeft -> Pos.x returned = viewportLeft) /\
  (viewportLeft <= targetLeft -> Pos.x returned = targetLeft) /\
  Pos.y returned = Rect.y targetPos.
Proof.
  intros Hactor. cbv zeta.
  rewrite (applyViewportClip_position m metaWindow actor targetPos viewport Hactor).
  cbn [Pos.x Pos.y].
  destruct (clamped_left_cases
              (Js.Math_floor (Rect.x targetPos + Manager._scrollOffset m))
              (Js.Math_floor (Viewport.x viewport))) as [(Hlt & Hc & _)|(Hle & Hc & _)];
    cbv zeta in Hc; rewrite Hc; repeat split; intros; auto; lra.
Qed.

(** ** The positioning pass *)

Lemma cancel_pending_clip_keeps (w : MetaWindow.t) (sh : Shell.t) :
  let '(w', sh') := cancel_pending_clip w sh in
  MetaWindow.id w' = MetaWindow.id w /\
  MetaWindow.frame_rect w' = MetaWindow.frame_rect w /\
  MetaWindow._mosaicPositionCorrectionX w' = MetaWindow._mosaicPositionCorrectionX w /\
  MetaWindow._mosaicPositionCorrectionY w' = MetaWindow._mosaicPositionCorrectionY w /\
  Shell.windows sh' = Shell.windows sh.
Proof.
  unfold cancel_pending_clip.
  destruct (MetaWindow._mosaicClipSignalId w);
    destruct (MetaWindow._mosaicClipTimeoutId w) eqn:E; cbn; rewrite ?E; cbn; auto.
Qed.


Lemma positionWindow_other (b : bool) (viewport : Viewport.t)
    (targetPositions : gmap Z Rect.t) (m : Manager.t) (sh : Shell.t) (r ref : Z) :
  r <> ref ->
  Shell.windows (snd (positionWindow b viewport targetPositions (m, sh) r)) !! ref
  = Shell.windows sh !! ref.
Proof.
  intros Hne. unfold positionWindow.
  destruct (Shell.windows sh !! r) as [w|]; [|reflexivity].
  destruct (targetPositions !! MetaWindow.id w) as [tp|]; [|reflexivity].
  destruct b; cbv zeta.
  - match goal with
    | |- context [cancel_pending_clip ?w0 ?s0] =>
        pose proof (cancel_pending_clip_keeps w0 s0) as Hk;
        destruct (cancel_pending_clip w0 s0) as [w1 sh1]
    end.
    destruct Hk as (_ & _ & _ & _ & Hw). cbn. rewrite Hw.
    now rewrite lookup_insert_ne.
  - cbn. now rewrite lookup_insert_ne.
Qed.








(** ** Fixed-step scrolling *)

Lemma requestRetile_windows (m : Manager.t) (sh : Shell.t) :
  Shell.windows (_requestRetile m sh) = Shell.windows sh.
Proof.
  unfold _requestRetile. destruct (Manager.has_tile_manager m); [|reflexivity].
  destruct (retile_candidates sh); reflexivity.
Qed.

(** The retile request of one scroll step: a call to the tiler for
    the first candidate window, when there is a tile manager. *)
Lemma requestRetile_calls (m : Manager.t) (sh : Shell.t) :
  Shell.tiler_calls (_requestRetile m sh) =
    Shell.tiler_calls sh ++
      (if Manager.has_tile_manager m then
         match retile_candidates sh with
         | w :: _ => [TileWindow (MetaWindow.id w) "scroll"]
         | [] => []
         end
       else []).
Proof.
  unfold _requestRetile. destruct (Manager.has_tile_manager m).
  - destruct (retile_candidates sh); cbn; [now rewrite app_nil_r|reflexivity].
  - now rewrite app_nil_r.
Qed.

Lemma scroll_keys_offset (keys : list ScrollKey) (m : Manager.t) (sh : Shell.t) :
  Manager._scrollOffset (fst (scroll_keys keys (m, sh)))
  == Manager._scrollOffset m + inject_Z (net_steps keys) * Manager._scrollStep m
  /\ Shell.windows (snd (scroll_keys keys (m, sh))) = Shell.windows sh.
Proof.
  revert m sh. induction keys as [|k keys IH]; intros m sh.
  - cbn. split; [ring|reflexivity].
  - change (scroll_keys (k :: keys) (m, sh)) with (scroll_keys keys (scroll_key (m, sh) k)).
    destruct k; cbn [scroll_key fst snd net_steps];
      [unfold scrollLeft|unfold scrollRight]; cbv zeta;
      match goal with
      | |- context [scroll_keys keys (?m1, ?sh1)] => destruct (IH m1 sh1) as [H1 H2]
      end;
      (split; [|now rewrite H2, requestRetile_windows]);
      rewrite H1; cbn [Manager._scrollOffset Manager._scrollStep Manager.with_scrollOffset].
    + unfold Z.sub. rewrite inject_Z_plus, inject_Z_opp. ring.
    + rewrite inject_Z_plus. ring.
Qed.


Lemma net_steps_right (n : nat) : net_steps (repeat KeyRight n) = Z.of_nat n.
Proof.
  induction n as [|n IH]; [reflexivity|].
  cbn [repeat net_steps]. rewrite IH. lia.
Qed.

(** No bound holds the offset: with a positive step, enough presses to
    the right take it past any given value. *)
Lemma scrollRight_unbounded (bound : Q) (m : Manager.t) (sh : Shell.t) :
  0 < Manager._scrollStep m ->
  exists n : nat,
    bound < Manager._scrollOffset (fst (scroll_keys (repeat KeyRight n) (m, sh))).
Proof.
  intros Hstep.
  set (q := (bound - Manager._scrollOffset m) / Manager._scrollStep m).
  exists (Z.to_nat (Z.max 0 (Qfloor q + 1))).
  destruct (scroll_keys_offset (repeat KeyRight (Z.to_nat (Z.max 0 (Qfloor q + 1)))) m sh)
    as [Hoff _].
  rewrite Hoff, net_steps_right, Z2Nat.id by lia.
  assert (Hq : q < inject_Z (Z.max 0 (Qfloor q + 1))).
  { eapply Qlt_le_trans; [apply Qlt_floor|].
    rewrite <- Zle_Qle. lia. }
  assert (Hmul : q * Manager._scrollStep m == bound - Manager._scrollOffset m).
  { unfold q. field. lra. }
  assert (Hlt : q * Manager._scrollStep m
                < inject_Z (Z.max 0 (Qfloor q + 1)) * Manager._scrollStep m).
  { apply Qmult_lt_compat_r; assumption. }
  lra.
Qed.

(** ** Animated scrolling *)







(** ** Visibility tests *)

Lemma getCanvasState_again (m : Manager.t) (monitorIndex : Z) (workspace : Workspace.t) :
  getCanvasState (fst (getCanvasState m monitorIndex workspace)) monitorIndex workspace
     = (fst (getCanvasState m monitorIndex workspace),
        snd (getCanvasState m monitorIndex workspace)).
Proof.
  unfold getCanvasState.
  destruct (Manager._canvasStates m !! (Workspace.index workspace, monitorIndex)) eqn:E.
  - cbn. now rewrite E.
  - cbn. now rewrite lookup_insert_eq.
Qed.

(** C10: the two visibility tests never both hold.  For a window they
    read the same frame and the same viewport bounds; the full test
    holds exactly when the frame lies inside the viewport, the partial
    one exactly when the frame overlaps the viewport and does not lie
    inside it, also when the second test is made after the first; for
    no window both are false. *)
Theorem visibility_tests_exclusive (m : Manager.t) (metaWindow : option MetaWindow.t) :
  let full := snd (isWindowFullyVisible m metaWindow) in
  let partial := snd (isWindowPartiallyVisible m metaWindow) in
  full && partial = false /\
  snd (isWindowPartiallyVisible (fst (isWindowFullyVisible m metaWindow)) metaWindow)
    = partial /\
  match metaWindow with
  | None => full = false /\ partial = false
  | Some w =>
      let workspace := MetaWindow.workspace w in
      let monitorIndex := MetaWindow.monitor w in
      let state := snd (getCanvasState m monitorIndex workspace) in
      let workArea := Workspace.get_work_area_for_monitor workspace monitorIndex in
      let windowLeft := Rect.x (MetaWindow.frame_rect w) in
      let windowRight := Rect.x (MetaWindow.frame_rect w) + Rect.width (MetaWindow.frame_rect w) in
      let viewportLeft := Rect.x workArea + CanvasState.viewportX state in
      let viewportRight := viewportLeft + Rect.width workArea in
      (full = true <-> viewportLeft <= windowLeft /\ windowRight <= viewportRight) /\
      (partial = true <->
         (windowLeft < viewportRight /\ viewportLeft < windowRight) /\
         ~ (viewportLeft <= windowLeft /\ windowRight <= viewportRight))
  end.
Proof.
  destruct metaWindow as [w|]; cbv zeta; [|cbn; auto].
  unfold isWindowFullyVisible, isWindowPartiallyVisible.
  pose proof (getCanvasState_again m (MetaWindow.monitor w) (MetaWindow.workspace w)) as Hag.
  destruct (getCanvasState m (MetaWindow.monitor w) (MetaWindow.workspace w)) as [m1 state].
  cbn [fst snd] in *. rewrite Hag. cbn [fst snd].
  unfold Js.geb, Js.gtb.
  set (viewportLeft :=
         Rect.x (Workspace.get_work_area_for_monitor (MetaWindow.workspace w)
                   (MetaWindow.monitor w)) + CanvasState.viewportX state).
  set (viewportRight :=
         viewportLeft + Rect.width (Workspace.get_work_area_for_monitor
                                      (MetaWindow.workspace w) (MetaWindow.monitor w))).
  set (windowLeft := Rect.x (MetaWindow.frame_rect w)).
  set (windowRight := windowLeft + Rect.width (MetaWindow.frame_rect w)).
  destruct (Js.leb viewportLeft windowLeft) eqn:Ea;
    destruct (Js.leb windowRight viewportRight) eqn:Eb;
    destruct (Js.ltb windowLeft viewportRight) eqn:Ec;
    destruct (Js.ltb viewportLeft windowRight) eqn:Ed;
    cbn [andb negb];
    repeat match goal with
           | H : Js.leb _ _ = true |- _ => apply leb_true in H
           | H : Js.leb _ _ = false |- _ => apply leb_false in H
           | H : Js.ltb _ _ = true |- _ => apply ltb_true in H
           | H : Js.ltb _ _ = false |- _ => apply ltb_false in H
           end;
    (split; [reflexivity|]); (split; [reflexivity|]);
    split; split; intros H; try discriminate H; try reflexivity;
    try (exfalso; lra); try (repeat split; try lra; intros [? ?]; lra);
    try (exfalso; destruct H as [[? ?] Hn]; try lra; apply Hn; split; lra).
Qed.

(** ** Further properties of the canvas manager *)

(** X1: [getCanvasState] creates a state once.  The state it returns is
    the one the registry holds afterwards under (workspace index,
    monitor); it is fresh (work area of the workspace, offset 0,
    PHASE_1) when the key was free and the stored one, with the manager
    untouched, when it was not; other keys keep their states; asking
    again returns the same state and changes nothing. *)
Theorem getCanvasState_lazy (m : Manager.t) (monitorIndex : Z) (workspace : Workspace.t) :
  let key := (Workspace.index workspace, monitorIndex) in
  let m' := fst (getCanvasState m monitorIndex workspace) in
  let state := snd (getCanvasState m monitorIndex workspace) in
  Manager._canvasStates m' !! key = Some state /\
  (Manager._canvasStates m !! key = None ->
   state = CanvasState.mk (Workspace.get_work_area_for_monitor workspace monitorIndex)
                          monitorIndex workspace 0 CanvasPhase.PHASE_1) /\
  (forall s, Manager._canvasStates m !! key = Some s -> state = s /\ m' = m) /\
  (forall key', key' <> key ->
     Manager._canvasStates m' !! key' = Manager._canvasStates m !! key') /\
  Manager._scrollOffset m' = Manager._scrollOffset m /\
  getCanvasState m' monitorIndex workspace = (m', state).
Proof.
  cbv zeta. rewrite getCanvasState_again. unfold getCanvasState.
  destruct (Manager._canvasStates m !! (Workspace.index workspace, monitorIndex)) as [s|] eqn:E;
    cbn [fst snd].
  - repeat split; try congruence.
  - cbn. rewrite lookup_insert_eq. repeat split; try congruence.
    intros key' Hne. now rewrite lookup_insert_ne.
Qed.


(** The result of [applyViewportClip] when the window has an actor and
    is not wholly inside the viewport, field by field. *)
Lemma applyViewportClip_outside (m : Manager.t) (metaWindow : MetaWindow.t)
    (actor : Actor.t) (targetPos : Rect.t) (viewport : Viewport.t) :
  MetaWindow.compositor_private metaWindow = Some actor ->
  let targetFrameLeft := Js.Math_floor (Rect.x targetPos + Manager._scrollOffset m) in
  let targetFrameRight := targetFrameLeft + Js.Math_floor (Rect.width targetPos) in
  let viewportLeft := Js.Math_floor (Viewport.x viewport) in
  let viewportRight := Js.Math_floor (Viewport.x viewport + Viewport.width viewport) in
  let clampedFrameX :=
    if Js.ltb targetFrameLeft viewportLeft then viewportLeft else targetFrameLeft in
  let translationX := targetFrameLeft - clampedFrameX in
  Js.strict_eq translationX 0 && Js.leb targetFrameRight viewportRight = false ->
  let bufferRect := MetaWindow.buffer_rect metaWindow in
  let offsetX := Rect.x (MetaWindow.frame_rect metaWindow) - Rect.x bufferRect in
  let visualActorX := clampedFrameX - offsetX + translationX in
  let actorWidth := Rect.width bufferRect in
  let visibleLeft := Js.Math_max visualActorX viewportLeft in
  let visibleRight := Js.Math_min (visualActorX + actorWidth) viewportRight in
  let clipX := Js.Math_floor (Js.Math_max 0 (visibleLeft - visualActorX)) in
  let clipWidth :=
    Js.Math_floor (Js.Math_min (visibleRight - visibleLeft) (actorWidth - clipX)) in
  let hidden := Js.leb clipWidth 0 in
  let full := Js.geb clipWidth actorWidth && Js.strict_eq clipX 0 in
  let '(m', metaWindow', returned) := applyViewportClip m metaWindow targetPos viewport in
  exists actor',
    metaWindow' = MetaWindow.with_actor (Some actor') metaWindow /\
    Actor.clip actor' =
      (if hidden then Some (Rect.mk 0 0 0 0)
       else if full then None
            else Some (Rect.mk clipX 0 clipWidth (Rect.height bufferRect))) /\
    Manager._clippedWindows m' =
      (if hidden then Manager._clippedWindows m
       else if full then Manager._clippedWindows m
            else {[MetaWindow.id metaWindow]} ∪ Manager._clippedWindows m) /\
    Actor.translation_x actor'
      = translationX + Js.or_zero (MetaWindow._mosaicPositionCorrectionX metaWindow) /\
    Actor.translation_y actor'
      = Js.or_zero (MetaWindow._mosaicPositionCorrectionY metaWindow) /\
    Actor.translation_z actor' = 0 /\
    Actor.relayout_queued actor' = true /\
    returned = Pos.mk clampedFrameX (Rect.y targetPos).
Proof.
  intros Hactor. cbv zeta. intros Hbranch.
  unfold applyViewportClip. rewrite Hactor. cbv zeta. rewrite Hbranch.
  match goal with
  | |- context [if Js.leb ?a 0 then (Actor.set_clip 0 0 0 0 _, _) else _] =>
      destruct (Js.leb a 0)
  end.
  - match goal with
    | |- context [Actor.set_translation _ _ _ (if ?c then _ else _)] => destruct c
    end; eexists; repeat split.
  - match goal with
    | |- context [if ?c then (Actor.remove_clip _, _) else _] => destruct c
    end;
    match goal with
    | |- context [Actor.set_translation _ _ _ (if ?c then _ else _)] => destruct c
    end; eexists; repeat split.
Qed.

(** The window that [applyViewportClip] returns is the one it was
    given, with another actor at most. *)
Lemma applyViewportClip_shape (m : Manager.t) (metaWindow : MetaWindow.t)
    (targetPos : Rect.t) (viewport : Viewport.t) :
  Manager._scrollOffset (fst (fst (applyViewportClip m metaWindow targetPos viewport)))
    = Manager._scrollOffset m /\
  Manager._canvasStates (fst (fst (applyViewportClip m metaWindow targetPos viewport)))
    = Manager._canvasStates m /\
  match MetaWindow.compositor_private metaWindow with
  | None =>
      applyViewportClip m metaWindow targetPos viewport
      = (m, metaWindow, Pos.mk (Rect.x targetPos) (Rect.y targetPos))
  | Some _ =>
      exists actor',
        snd (fst (applyViewportClip m metaWindow targetPos viewport))
          = MetaWindow.with_actor (Some actor') metaWindow /\
        Actor.opacity actor' == 255
  end.
Proof.
  unfold applyViewportClip.
  destruct (MetaWindow.compositor_private metaWindow) as [actor|] eqn:Hactor.
  2: { repeat split. }
  cbv zeta.
  destruct (Js.strict_eq (Actor.opacity actor) 255) eqn:Hop.
  - apply strict_eq_true in Hop. cbn [negb].
    repeat match goal with
           | |- context [if ?c then _ else _] => destruct c
           end;
      repeat split; eexists; (split; [reflexivity|exact Hop]).
  - cbn [negb].
    repeat match goal with
           | |- context [if ?c then _ else _] => destruct c
           end;
      repeat split; eexists; (split; [reflexivity|reflexivity]).
Qed.

(** X3: [applyViewportClip] works on the actor only.  It leaves the
    window's id, frame and buffer rectangles and stored correction as
    they are, and the manager's scroll offset and canvas states too;
    without an actor nothing changes at all and the target position
    comes back as given (not floored); with an actor, the actor is
    fully opaque afterwards. *)
Theorem applyViewportClip_actor_only (m : Manager.t) (metaWindow : MetaWindow.t)
    (targetPos : Rect.t) (viewport : Viewport.t) :
  let '(m', metaWindow', returned) := applyViewportClip m metaWindow targetPos viewport in
  MetaWindow.id metaWindow' = MetaWindow.id metaWindow /\
  MetaWindow.frame_rect metaWindow' = MetaWindow.frame_rect metaWindow /\
  MetaWindow.buffer_rect metaWindow' = MetaWindow.buffer_rect metaWindow /\
  MetaWindow._mosaicPositionCorrectionX metaWindow'
    = MetaWindow._mosaicPositionCorrectionX metaWindow /\
  MetaWindow._mosaicPositionCorrectionY metaWindow'
    = MetaWindow._mosaicPositionCorrectionY metaWindow /\
  Manager._scrollOffset m' = Manager._scrollOffset m /\
  Manager._canvasStates m' = Manager._canvasStates m /\
  match MetaWindow.compositor_private metaWindow with
  | None =>
      m' = m /\ metaWindow' = metaWindow /\
      returned = Pos.mk (Rect.x targetPos) (Rect.y targetPos)
  | Some _ =>
      exists actor',
        MetaWindow.compositor_private metaWindow' = Some actor' /\
        Actor.opacity actor' == 255
  end.
Proof.
  pose proof (applyViewportClip_shape m metaWindow targetPos viewport) as (Ho & Hc & Hs).
  destruct (applyViewportClip m metaWindow targetPos viewport) as [[m' w'] returned].
  cbn [fst snd] in *.
  destruct (MetaWindow.compositor_private metaWindow) as [actor|].
  - destruct Hs as (actor' & -> & Hop). repeat split; auto. eauto.
  - inversion Hs; subst. repeat split; auto.
Qed.

Lemma floor_nonneg (q : Q) : 0 <= q -> 0 <= Js.Math_floor q.
Proof.
  intros H. unfold Js.Math_floor.
  change 0 with (inject_Z 0). rewrite <- Zle_Qle.
  rewrite <- (Qfloor_Z 0). now apply Qfloor_resp_le.
Qed.

Lemma floor_le (q : Q) : Js.Math_floor q <= q.
Proof. apply Qfloor_le. Qed.

(** The test that sends [applyViewportClip] down its first return. *)
Lemma inside_test (targetFrameLeft targetFrameRight viewportLeft viewportRight : Q) :
  let clampedFrameX :=
    if Js.ltb targetFrameLeft viewportLeft then viewportLeft else targetFrameLeft in
  Js.strict_eq (targetFrameLeft - clampedFrameX) 0 && Js.leb targetFrameRight viewportRight
  = true
  <-> viewportLeft <= targetFrameLeft /\ targetFrameRight <= viewportRight.
Proof.
  cbv zeta.
  destruct (clamped_left_cases targetFrameLeft viewportLeft) as [(H & _ & Hs)|(H & _ & Hs)];
    cbv zeta in Hs; rewrite Hs; cbn [andb].
  - split; [discriminate|]. intros [H1 _]. lra.
  - rewrite leb_true. tauto.
Qed.

Lemma applyViewportClip_inside (m : Manager.t) (metaWindow : MetaWindow.t)
    (actor : Actor.t) (targetPos : Rect.t) (viewport : Viewport.t) :
  MetaWindow.compositor_private metaWindow = Some actor ->
  let targetFrameLeft := Js.Math_floor (Rect.x targetPos + Manager._scrollOffset m) in
  let targetFrameRight := targetFrameLeft + Js.Math_floor (Rect.width targetPos) in
  let viewportLeft := Js.Math_floor (Viewport.x viewport) in
  let viewportRight := Js.Math_floor (Viewport.x viewport + Viewport.width viewport) in
  viewportLeft <= targetFrameLeft /\ targetFrameRight <= viewportRight ->
  let '(m', metaWindow', returned) := applyViewportClip m metaWindow targetPos viewport in
  exists actor',
    metaWindow' = MetaWindow.with_actor (Some actor') metaWindow /\
    Actor.clip actor' = None /\
    Actor.translation_x actor' = 0 /\
    Actor.translation_y actor' = 0 /\
    Manager._clippedWindows m' = Manager._clippedWindows m ∖ {[MetaWindow.id metaWindow]} /\
    returned = Pos.mk targetFrameLeft (Rect.y targetPos).
Proof.
  intros Hactor. cbv zeta. intros Hin. apply inside_test in Hin. cbv zeta in Hin.
  unfold applyViewportClip. rewrite Hactor. cbv zeta. rewrite Hin.
  match goal with
  | |- context [MetaWindow.with_actor (Some (if ?c then _ else _)) _] => destruct c
  end; eexists; repeat split.
Qed.

(** X4: a clip that [applyViewportClip] leaves on an actor is either the
    empty rectangle that hides it, or a rectangle inside the surface:
    it starts at a non-negative x, has a positive width, ends within
    the surface's width, spans the surface's full height from 0, and
    the window is then tracked as clipped. *)
Theorem applyViewportClip_clip_within_surface (m : Manager.t) (metaWindow : MetaWindow.t)
    (actor : Actor.t) (targetPos : Rect.t) (viewport : Viewport.t) :
  MetaWindow.compositor_private metaWindow = Some actor ->
  let '(m', metaWindow', returned) := applyViewportClip m metaWindow targetPos viewport in
  exists actor',
    MetaWindow.compositor_private metaWindow' = Some actor' /\
    match Actor.clip actor' with
    | None => True
    | Some r =>
        r = Rect.mk 0 0 0 0 \/
        (0 <= Rect.x r /\ 0 < Rect.width r /\
         Rect.x r + Rect.width r <= Rect.width (MetaWindow.buffer_rect metaWindow) /\
         Rect.y r = 0 /\
         Rect.height r = Rect.height (MetaWindow.buffer_rect metaWindow) /\
         MetaWindow.id metaWindow ∈ Manager._clippedWindows m')
    end.
Proof.
  intros Hactor.
  set (targetFrameLeft := Js.Math_floor (Rect.x targetPos + Manager._scrollOffset m)).
  set (targetFrameRight := targetFrameLeft + Js.Math_floor (Rect.width targetPos)).
  set (viewportLeft := Js.Math_floor (Viewport.x viewport)).
  set (viewportRight := Js.Math_floor (Viewport.x viewport + Viewport.width viewport)).
  destruct (Js.strict_eq
              (targetFrameLeft
               - (if Js.ltb targetFrameLeft viewportLeft then viewportLeft else targetFrameLeft)) 0
            && Js.leb targetFrameRight viewportRight) eqn:Hbranch.
  - apply inside_test in Hbranch.
    pose proof (applyViewportClip_inside m metaWindow actor targetPos viewport Hactor Hbranch)
      as H.
    destruct (applyViewportClip m metaWindow targetPos viewport) as [[m' w'] returned].
    destruct H as (actor' & -> & Hclip & _). exists actor'. split; [reflexivity|].
    now rewrite Hclip.
  - pose proof (applyViewportClip_outside m metaWindow actor targetPos viewport Hactor Hbranch)
      as H.
    destruct (applyViewportClip m metaWindow targetPos viewport) as [[m' w'] returned].
    cbv zeta in H. destruct H as (actor' & -> & Hclip & Htrack & _).
    exists actor'. split; [reflexivity|]. rewrite Hclip, Htrack.
    match goal with
    | |- context [if Js.leb ?cw 0 then _ else _] => destruct (Js.leb cw 0) eqn:Ehid
    end; [left; reflexivity|].
    match goal with
    | |- context [if ?c then None else _] => destruct c; [exact I|]
    end.
    right. apply leb_false in Ehid. cbn [Rect.x Rect.y Rect.width Rect.height].
    split; [|split; [exact Ehid|split; [|split; [reflexivity|split; [reflexivity|]]]]].
    + apply floor_nonneg. apply Q.le_max_l.
    + match goal with
      | |- ?cx + Js.Math_floor (Js.Math_min ?a (?aw - ?cx)) <= ?aw =>
          pose proof (floor_le (Js.Math_min a (aw - cx))) as Hf;
          assert (Hm : Js.Math_min a (aw - cx) <= aw - cx) by apply Q.le_min_r;
          lra
      end.
    + apply elem_of_union. left. now apply elem_of_singleton.
Qed.

Lemma inside_test_false (targetFrameLeft targetFrameRight viewportLeft viewportRight : Q) :
  ~ (viewportLeft <= targetFrameLeft /\ targetFrameRight <= viewportRight) ->
  Js.strict_eq
    (targetFrameLeft
     - (if Js.ltb targetFrameLeft viewportLeft then viewportLeft else targetFrameLeft)) 0
  && Js.leb targetFrameRight viewportRight = false.
Proof.
  intros Hn.
  destruct (_ && _) eqn:E; [|reflexivity].
  apply inside_test in E. contradiction.
Qed.

(** X5: a window that is not wholly inside the viewport and whose
    surface, drawn at the target, does not meet the viewport at all
    (it ends at or before the viewport's left edge, or starts at or
    after its right edge) is hidden with the empty clip, and is not
    added to the clip tracking. *)
Theorem applyViewportClip_hides_off_viewport (m : Manager.t) (metaWindow : MetaWindow.t)
    (actor : Actor.t) (targetPos : Rect.t) (viewport : Viewport.t) :
  MetaWindow.compositor_private metaWindow = Some actor ->
  let targetFrameLeft := Js.Math_floor (Rect.x targetPos + Manager._scrollOffset m) in
  let targetFrameRight := targetFrameLeft + Js.Math_floor (Rect.width targetPos) in
  let viewportLeft := Js.Math_floor (Viewport.x viewport) in
  let viewportRight := Js.Math_floor (Viewport.x viewport + Viewport.width viewport) in
  let offsetX :=
    Rect.x (MetaWindow.frame_rect metaWindow) - Rect.x (MetaWindow.buffer_rect metaWindow) in
  let surfaceLeft := targetFrameLeft - offsetX in
  let surfaceRight := surfaceLeft + Rect.width (MetaWindow.buffer_rect metaWindow) in
  ~ (viewportLeft <= targetFrameLeft /\ targetFrameRight <= viewportRight) ->
  surfaceRight <= viewportLeft \/ viewportRight <= surfaceLeft ->
  let '(m', metaWindow', returned) := applyViewportClip m metaWindow targetPos viewport in
  exists actor',
    MetaWindow.compositor_private metaWindow' = Some actor' /\
    Actor.clip actor' = Some (Rect.mk 0 0 0 0) /\
    Manager._clippedWindows m' = Manager._clippedWindows m.
Proof.
  intros Hactor. cbv zeta. intros Hout Hoff.
  apply inside_test_false in Hout.
  pose proof (applyViewportClip_outside m metaWindow actor targetPos viewport Hactor Hout) as H.
  destruct (applyViewportClip m metaWindow targetPos viewport) as [[m' w'] returned].
  cbv zeta in H. destruct H as (actor' & -> & Hclip & Htrack & _).
  exists actor'. split; [reflexivity|]. rewrite Hclip, Htrack.
  match goal with
  | |- context [if Js.leb ?cw 0 then _ else _] =>
      assert (Hhid : Js.leb cw 0 = true); [|rewrite Hhid; split; reflexivity]
  end.
  apply leb_true.
  match goal with
  | |- Js.Math_floor (Js.Math_min ?a ?b) <= 0 =>
      pose proof (floor_le (Js.Math_min a b)) as Hf;
      assert (Hm : Js.Math_min a b <= a) by apply Q.le_min_l;
      assert (Ha : a <= 0); [|lra]
  end.
  match goal with
  | |- Js.Math_min ?r ?vr - Js.Math_max ?l ?vl <= 0 =>
      assert (H1 : Js.Math_min r vr <= r) by apply Q.le_min_l;
      assert (H2 : Js.Math_min r vr <= vr) by apply Q.le_min_r;
      assert (H3 : l <= Js.Math_max l vl) by apply Q.le_max_l;
      assert (H4 : vl <= Js.Math_max l vl) by apply Q.le_max_r
  end.
  destruct Hoff as [Hl|Hr]; lra.
Qed.

(** X6: for a window that is not wholly inside the viewport, the frame
    position returned and the translation put on the actor add up to
    the target: returned x plus translation x is the offset target's
    left edge plus the stored x correction, the y translation is the
    stored y correction (both 0 when none is stored), and a relayout is
    queued. *)
Theorem applyViewportClip_shows_at_target (m : Manager.t) (metaWindow : MetaWindow.t)
    (actor : Actor.t) (targetPos : Rect.t) (viewport : Viewport.t) :
  MetaWindow.compositor_private metaWindow = Some actor ->
  let targetFrameLeft := Js.Math_floor (Rect.x targetPos + Manager._scrollOffset m) in
  let targetFrameRight := targetFrameLeft + Js.Math_floor (Rect.width targetPos) in
  let viewportLeft := Js.Math_floor (Viewport.x viewport) in
  let viewportRight := Js.Math_floor (Viewport.x viewport + Viewport.width viewport) in
  ~ (viewportLeft <= targetFrameLeft /\ targetFrameRight <= viewportRight) ->
  let '(m', metaWindow', returned) := applyViewportClip m metaWindow targetPos viewport in
  exists actor',
    MetaWindow.compositor_private metaWindow' = Some actor' /\
    Pos.x returned + Actor.translation_x actor'
      == targetFrameLeft + Js.or_zero (MetaWindow._mosaicPositionCorrectionX metaWindow) /\
    Actor.translation_y actor'
      = Js.or_zero (MetaWindow._mosaicPositionCorrectionY metaWindow) /\
    Actor.translation_z actor' = 0 /\
    Actor.relayout_queued actor' = true.
Proof.
  intros Hactor. cbv zeta. intros Hout.
  apply inside_test_false in Hout.
  pose proof (applyViewportClip_outside m metaWindow actor targetPos viewport Hactor Hout) as H.
  destruct (applyViewportClip m metaWindow targetPos viewport) as [[m' w'] returned].
  cbv zeta in H.
  destruct H as (actor' & -> & _ & _ & Htx & Hty & Htz & Hq & ->).
  exists actor'. split; [reflexivity|]. rewrite Htx. cbn [Pos.x].
  repeat split; auto. ring.
Qed.

(** ** Pending clip applications *)

Lemma cancel_pending_clip_cancels (w : MetaWindow.t) (sh : Shell.t) :
  let '(w', sh') := cancel_pending_clip w sh in
  MetaWindow._mosaicClipSignalId w' = None /\
  MetaWindow._mosaicClipTimeoutId w' = None /\
  MetaWindow.pending_clip w' = MetaWindow.pending_clip w /\
  MetaWindow.compositor_private w' = MetaWindow.compositor_private w /\
  MetaWindow.buffer_rect w' = MetaWindow.buffer_rect w /\
  (forall s, MetaWindow._mosaicClipSignalId w = Some s \/ MetaWindow._mosaicClipTimeoutId w = Some s ->
             s ∈ Shell.removed_sources sh') /\
  (forall s, s ∈ Shell.removed_sources sh -> s ∈ Shell.removed_sources sh') /\
  Shell.next_source_id sh' = Shell.next_source_id sh /\
  Shell.tiler_calls sh' = Shell.tiler_calls sh /\
  Shell.active_workspace_windows sh' = Shell.active_workspace_windows sh.
Proof.
  unfold cancel_pending_clip.
  destruct (MetaWindow._mosaicClipSignalId w) as [sig|] eqn:Es;
    destruct (MetaWindow._mosaicClipTimeoutId w) as [tmo|] eqn:Et;
    cbn; rewrite ?Et; cbn; repeat split; auto;
    try (intros s [H|H]; inversion H; subst);
    try (intros s H);
    repeat first [assumption | apply list_elem_of_here | apply list_elem_of_further].
Qed.


Lemma positionWindow_sources (b : bool) (viewport : Viewport.t)
    (targetPositions : gmap Z Rect.t) (m : Manager.t) (sh : Shell.t) (r : Z) :
  let sh' := snd (positionWindow b viewport targetPositions (m, sh) r) in
  (Shell.next_source_id sh <= Shell.next_source_id sh')%Z /\
  (forall s, s ∈ Shell.removed_sources sh -> s ∈ Shell.removed_sources sh') /\
  Shell.tiler_calls sh' = Shell.tiler_calls sh /\
  Shell.active_workspace_windows sh' = Shell.active_workspace_windows sh.
Proof.
  cbv zeta. unfold positionWindow.
  destruct (Shell.windows sh !! r) as [w|]; [|cbn; repeat split; auto; lia].
  destruct (targetPositions !! MetaWindow.id w) as [tp|]; [|cbn; repeat split; auto; lia].
  destruct b; cbv zeta; [|cbn; repeat split; auto; lia].
  match goal with
  | |- context [cancel_pending_clip ?w1 ?s1] =>
      pose proof (cancel_pending_clip_cancels w1 s1) as Hk;
      destruct (cancel_pending_clip w1 s1) as [w2 sh2]
  end.
  destruct Hk as (_ & _ & _ & _ & _ & _ & Hmono & Hnext & Hcalls & Hact).
  cbn. rewrite Hnext. repeat split; auto; lia.
Qed.

Lemma fold_positionWindow_sources (b : bool) (viewport : Viewport.t)
    (targetPositions : gmap Z Rect.t) (l : list Z) (m : Manager.t) (sh : Shell.t) :
  let sh' := snd (fold_left (positionWindow b viewport targetPositions) l (m, sh)) in
  (Shell.next_source_id sh <= Shell.next_source_id sh')%Z /\
  (forall s, s ∈ Shell.removed_sources sh -> s ∈ Shell.removed_sources sh') /\
  Shell.tiler_calls sh' = Shell.tiler_calls sh /\
  Shell.active_workspace_windows sh' = Shell.active_workspace_windows sh.
Proof.
  revert m sh. induction l as [|r l IH]; intros m sh; cbv zeta; cbn [fold_left].
  - cbn. repeat split; auto; lia.
  - pose proof (positionWindow_sources b viewport targetPositions m sh r) as H1.
    destruct (positionWindow b viewport targetPositions (m, sh) r) as [m1 sh1].
    cbv zeta in H1. cbn [snd] in H1. destruct H1 as (Hn1 & Hr1 & Hc1 & Ha1).
    destruct (IH m1 sh1) as (Hn2 & Hr2 & Hc2 & Ha2).
    repeat split; try congruence; [lia|auto].
Qed.

Lemma updateWindowPositions_fold (windows : list Z) (workspace : Workspace.t)
    (monitorIndex : Z) (tileInfo : option TileInfo.t) (workArea : option Rect.t)
    (b : bool) (st : Manager.t * Shell.t) :
  let actualWorkArea :=
    default (Workspace.get_work_area_for_monitor workspace monitorIndex) workArea in
  updateWindowPositions (Some windows) workspace monitorIndex tileInfo workArea b st
  = fold_left (positionWindow b (Viewport.mk (Rect.x actualWorkArea) (Rect.width actualWorkArea))
                              (targetPositions_of tileInfo))
              windows st.
Proof. unfold updateWindowPositions. destruct windows; reflexivity. Qed.


(** X8: what a positioning pass skips.  Without a window list, with an
    empty one, or without tile information (none, or none with levels)
    it changes nothing; and a window that has no target position in
    the tile information is left exactly as it was, whatever else the
    pass positions. *)
Theorem updateWindowPositions_skips (m : Manager.t) (sh : Shell.t)
    (windows : list Z) (workspace : Workspace.t) (monitorIndex : Z)
    (tileInfo : option TileInfo.t) (workArea : option Rect.t) (b : bool) :
  updateWindowPositions None workspace monitorIndex tileInfo workArea b (m, sh) = (m, sh) /\
  updateWindowPositions (Some []) workspace monitorIndex tileInfo workArea b (m, sh) = (m, sh) /\
  updateWindowPositions (Some windows) workspace monitorIndex None workArea b (m, sh)
    = (m, sh) /\
  updateWindowPositions (Some windows) workspace monitorIndex (Some (TileInfo.mk None))
                        workArea b (m, sh) = (m, sh) /\
  (forall ref w0,
      Shell.windows sh !! ref = Some w0 ->
      targetPositions_of tileInfo !! MetaWindow.id w0 = None ->
      Shell.windows
        (snd (updateWindowPositions (Some windows) workspace monitorIndex tileInfo
                                    workArea b (m, sh))) !! ref = Some w0).
Proof.
  assert (Hempty : forall vp l st,
             fold_left (positionWindow b vp (∅ : gmap Z Rect.t)) l st = st).
  { intros vp l. induction l as [|r l IH]; intros [m0 sh0]; cbn [fold_left]; [reflexivity|].
    rewrite <- (IH (m0, sh0)) at 2. f_equal.
    unfold positionWindow. destruct (Shell.windows sh0 !! r); [|reflexivity].
    now rewrite lookup_empty. }
  split; [reflexivity|]. split; [reflexivity|].
  split; [rewrite updateWindowPositions_fold; apply Hempty|].
  split; [rewrite updateWindowPositions_fold; apply Hempty|].
  intros ref w0 Hw Ht. rewrite updateWindowPositions_fold. cbv zeta.
  set (viewport := Viewport.mk _ _). set (tps := targetPositions_of tileInfo) in *.
  clearbody viewport. revert m sh Hw.
  induction windows as [|r l IH]; intros m sh Hw; cbn [fold_left]; [exact Hw|].
  assert (Hstep : Shell.windows (snd (positionWindow b viewport tps (m, sh) r)) !! ref
                  = Some w0).
  { destruct (decide (r = ref)) as [->|Hne].
    - unfold positionWindow. rewrite Hw, Ht. exact Hw.
    - now rewrite positionWindow_other. }
  destruct (positionWindow b viewport tps (m, sh) r) as [m1 sh1].
  now apply IH.
Qed.

Lemma same_but_clip_refl (w : MetaWindow.t) : same_but_clip w w.
Proof. unfold same_but_clip. repeat split; auto. Qed.

Lemma clip_removed_again (o0 o1 : option Actor.t) :
  o1 = o0 \/ o1 = Actor.remove_clip <$> o0 ->
  (Actor.remove_clip <$> o1 = o0 \/ Actor.remove_clip <$> o1 = Actor.remove_clip <$> o0) /\
  Actor.clip <$> (Actor.remove_clip <$> o1) = (fun _ => None) <$> o0.
Proof.
  intros [->| ->]; destruct o0 as [a0|]; cbn; auto.
Qed.

(** One step of a pass that does not control positioning, seen from a
    window [ref]: [unclipped] says that the window has no clip and is
    not tracked as clipped. *)
Lemma positionWindow_false_step (viewport : Viewport.t) (targetPositions : gmap Z Rect.t)
    (m : Manager.t) (sh : Shell.t) (r ref : Z) (w0 w1 : MetaWindow.t) :
  same_but_clip w0 w1 ->
  Shell.windows sh !! ref = Some w1 ->
  let unclipped (m : Manager.t) (w : MetaWindow.t) :=
    Actor.clip <$> MetaWindow.compositor_private w
      = (fun _ => None) <$> MetaWindow.compositor_private w0
    /\ MetaWindow.id w0 ∉ Manager._clippedWindows m in
  let st' := positionWindow false viewport targetPositions (m, sh) r in
  Manager._scrollOffset (fst st') = Manager._scrollOffset m /\
  Manager._clippedWindows (fst st') ⊆ Manager._clippedWindows m /\
  Shell.next_source_id (snd st') = Shell.next_source_id sh /\
  Shell.removed_sources (snd st') = Shell.removed_sources sh /\
  exists w2,
    Shell.windows (snd st') !! ref = Some w2 /\ same_but_clip w0 w2 /\
    (r = ref \/ unclipped m w1 ->
     is_Some (targetPositions !! MetaWindow.id w0) ->
     unclipped (fst st') w2).
Proof.
  intros (Hid & Hf & Hb & Hx & Hy & Hs & Ht & Hp & Ha) Hw. cbv zeta.
  destruct (decide (r = ref)) as [->|Hne].
  - unfold positionWindow. rewrite Hw, Hid.
    destruct (targetPositions !! MetaWindow.id w0) as [tp|] eqn:Etp.
    + cbn. rewrite lookup_insert_eq.
      split; [reflexivity|]. split; [apply subseteq_difference_l; reflexivity|].
      split; [reflexivity|]. split; [reflexivity|].
      pose proof (clip_removed_again _ _ Ha) as [Ha' Hclip].
      eexists. split; [reflexivity|]. split.
      * unfold same_but_clip.
        destruct (MetaWindow.compositor_private w1) as [a1|] eqn:E1; cbn;
          rewrite ?E1; repeat split; auto.
      * intros _ _.
        split; [|intros [_ Hn]%elem_of_difference; apply Hn; now apply elem_of_singleton].
        destruct (MetaWindow.compositor_private w1) as [a1|] eqn:E1; cbn;
          rewrite ?E1; exact Hclip.
    + cbn. split; [reflexivity|]. split; [reflexivity|]. split; [reflexivity|].
      split; [reflexivity|].
      exists w1. split; [exact Hw|]. split.
      * unfold same_but_clip. repeat split; auto.
      * intros _ [x Hx']. discriminate.
  - pose proof (positionWindow_other false viewport targetPositions m sh r ref Hne) as Ho.
    unfold positionWindow in *.
    destruct (Shell.windows sh !! r) as [w|];
      [destruct (targetPositions !! MetaWindow.id w) as [tp|]|];
      cbn in *; (split; [reflexivity|]);
      (split; [first [reflexivity | apply subseteq_difference_l; reflexivity]|]);
      (split; [reflexivity|]); (split; [reflexivity|]);
      exists w1; (split; [congruence|]);
      (split; [unfold same_but_clip; repeat split; auto|]);
      (intros [Hr|[Hc Hn]] _; [contradiction|split; [exact Hc|]]);
      first [exact Hn | intros [Hin _]%elem_of_difference; exact (Hn Hin)].
Qed.

Lemma fold_positionWindow_false (viewport : Viewport.t) (targetPositions : gmap Z Rect.t)
    (ref : Z) (w0 : MetaWindow.t) (l : list Z) (m : Manager.t) (sh : Shell.t)
    (w1 : MetaWindow.t) :
  same_but_clip w0 w1 ->
  Shell.windows sh !! ref = Some w1 ->
  let unclipped (m : Manager.t) (w : MetaWindow.t) :=
    Actor.clip <$> MetaWindow.compositor_private w
      = (fun _ => None) <$> MetaWindow.compositor_private w0
    /\ MetaWindow.id w0 ∉ Manager._clippedWindows m in
  let st' := fold_left (positionWindow false viewport targetPositions) l (m, sh) in
  Manager._scrollOffset (fst st') = Manager._scrollOffset m /\
  Manager._clippedWindows (fst st') ⊆ Manager._clippedWindows m /\
  Shell.next_source_id (snd st') = Shell.next_source_id sh /\
  Shell.removed_sources (snd st') = Shell.removed_sources sh /\
  exists w',
    Shell.windows (snd st') !! ref = Some w' /\ same_but_clip w0 w' /\
    (ref ∈ l \/ unclipped m w1 ->
     is_Some (targetPositions !! MetaWindow.id w0) ->
     unclipped (fst st') w').
Proof.
  revert m sh w1. induction l as [|r l IH]; intros m sh w1 Hsame Hw; cbv zeta;
    cbn [fold_left].
  - cbn. split; [reflexivity|]. split; [reflexivity|]. split; [reflexivity|].
    split; [reflexivity|]. exists w1. split; [exact Hw|]. split; [exact Hsame|].
    intros [Hin|Hdone] _; [inversion Hin|exact Hdone].
  - pose proof (positionWindow_false_step viewport targetPositions m sh r ref w0 w1 Hsame Hw)
      as Hstep.
    destruct (positionWindow false viewport targetPositions (m, sh) r) as [m2 sh2].
    cbv zeta in Hstep. cbn [fst snd] in Hstep.
    destruct Hstep as (Ho & Hc & Hn & Hr & w2 & Hw2 & Hsame2 & Hdone2).
    destruct (IH m2 sh2 w2 Hsame2 Hw2)
      as (Ho' & Hc' & Hn' & Hr' & w' & Hw' & Hsame' & Hdone').
    split; [congruence|]. split; [now transitivity (Manager._clippedWindows m2)|].
    split; [congruence|].
    split; [congruence|]. exists w'. split; [exact Hw'|]. split; [exact Hsame'|].
    intros Hcase Htp. apply Hdone'; [|exact Htp].
    destruct Hcase as [Hin|Hdone].
    + apply elem_of_cons in Hin as [->|Hin]; [right|left; exact Hin].
      apply Hdone2; auto.
    + right. apply Hdone2; auto.
Qed.

(** X9: a pass that does not control positioning ([updateClones]) moves
    nothing.  Every window keeps its frame and buffer rectangles, its
    stored correction and its pending clip registration; no source is
    added or removed, the tiler is not called and the scroll offset
    stays; at most the actor's clip is removed.  A listed window with a
    target position ends without clip and out of the clip tracking,
    and the tracking never grows. *)
Theorem updateClones_never_moves (m : Manager.t) (sh : Shell.t)
    (windows : list Z) (workspace : Workspace.t) (monitorIndex : Z)
    (tileInfo : option TileInfo.t) (ref : Z) (w0 : MetaWindow.t) :
  Shell.windows sh !! ref = Some w0 ->
  let st' := updateClones (Some windows) workspace monitorIndex tileInfo (m, sh) in
  Manager._scrollOffset (fst st') = Manager._scrollOffset m /\
  Manager._clippedWindows (fst st') ⊆ Manager._clippedWindows m /\
  Shell.next_source_id (snd st') = Shell.next_source_id sh /\
  Shell.removed_sources (snd st') = Shell.removed_sources sh /\
  Shell.tiler_calls (snd st') = Shell.tiler_calls sh /\
  exists w',
    Shell.windows (snd st') !! ref = Some w' /\
    same_but_clip w0 w' /\
    (ref ∈ windows ->
     is_Some (targetPositions_of tileInfo !! MetaWindow.id w0) ->
     Actor.clip <$> MetaWindow.compositor_private w'
       = (fun _ => None) <$> MetaWindow.compositor_private w0
     /\ MetaWindow.id w0 ∉ Manager._clippedWindows (fst st')).
Proof.
  intros Hw. cbv zeta. unfold updateClones. rewrite updateWindowPositions_fold. cbv zeta.
  set (viewport := Viewport.mk _ _). set (tps := targetPositions_of tileInfo).
  destruct (fold_positionWindow_false viewport tps ref w0 windows m sh w0
              (same_but_clip_refl w0) Hw)
    as (H1 & H2 & H3 & H4 & w' & H5 & H6 & H7).
  split; [exact H1|]. split; [exact H2|]. split; [exact H3|]. split; [exact H4|].
  split; [apply (fold_positionWindow_sources false viewport tps windows m sh)|].
  exists w'. split; [exact H5|]. split; [exact H6|].
  intros Hin Htp. apply H7; auto.
Qed.



(** ** removeAllClips *)

Lemma removeAllClips_fold (l : list Z) (heap : gmap Z MetaWindow.t) (ref : Z)
    (w : MetaWindow.t) :
  let reset (w : MetaWindow.t) :=
    match MetaWindow.compositor_private w with
    | Some actor =>
        MetaWindow.with_actor
          (Some (Actor.set_translation 0 0 0 (Actor.remove_clip actor))) w
    | None => w
    end in
  let heap' :=
    fold_left
      (fun (heap : gmap Z MetaWindow.t) ref =>
         match heap !! ref with
         | Some metaWindow =>
             match MetaWindow.compositor_private metaWindow with
             | Some actor =>
                 <[ref := MetaWindow.with_actor
                            (Some (Actor.set_translation 0 0 0 (Actor.remove_clip actor)))
                            metaWindow]> heap
             | None => heap
             end
         | None => heap
         end) l heap in
  (heap !! ref = Some w \/ heap !! ref = Some (reset w)) ->
  (ref ∈ l -> heap' !! ref = Some (reset w)) /\
  (ref ∉ l -> heap' !! ref = heap !! ref).
Proof.
  cbv zeta. revert heap. induction l as [|r l IH]; intros heap Hw; cbn [fold_left].
  - split; [intros Hin; inversion Hin|reflexivity].
  - set (heap1 := match heap !! r with Some _ => _ | None => _ end).
    assert (H1 : (r = ref -> heap1 !! ref = Some
                    (match MetaWindow.compositor_private w with
                     | Some actor =>
                         MetaWindow.with_actor
                           (Some (Actor.set_translation 0 0 0 (Actor.remove_clip actor))) w
                     | None => w
                     end))
                 /\ (r <> ref -> heap1 !! ref = heap !! ref)).
    { unfold heap1. split.
      - intros ->. destruct Hw as [Hw|Hw]; rewrite Hw;
          destruct (MetaWindow.compositor_private w) as [a|] eqn:Ea; cbn; rewrite ?Ea;
          rewrite ?lookup_insert_eq; auto.
      - intros Hne. destruct (heap !! r) as [wr|]; [|reflexivity].
        destruct (MetaWindow.compositor_private wr); [|reflexivity].
        now rewrite lookup_insert_ne. }
    destruct H1 as [Heq Hne].
    destruct (decide (r = ref)) as [->|Hd].
    + specialize (Heq eq_refl).
      destruct (IH heap1 (or_intror Heq)) as [Hin' Hnot'].
      split.
      * intros _. destruct (decide (ref ∈ l)) as [Hl|Hl]; [auto|].
        rewrite (Hnot' Hl). exact Heq.
      * intros Hn. exfalso. apply Hn. left.
    + specialize (Hne Hd).
      assert (Hw1 : heap1 !! ref = Some w \/ heap1 !! ref = Some
                    (match MetaWindow.compositor_private w with
                     | Some actor =>
                         MetaWindow.with_actor
                           (Some (Actor.set_translation 0 0 0 (Actor.remove_clip actor))) w
                     | None => w
                     end)) by (rewrite Hne; exact Hw).
      destruct (IH heap1 Hw1) as [Hin' Hnot'].
      split.
      * intros Hin. apply elem_of_cons in Hin as [Hin|Hin]; [congruence|auto].
      * intros Hn. apply not_elem_of_cons in Hn as [_ Hn]. rewrite (Hnot' Hn). exact Hne.
Qed.

(** X11: [removeAllClips] resets the scroll offset to 0 and empties the
    clip tracking; every window that the active workspace lists and
    that has an actor gets its clip removed and its translation set to
    (0, 0, 0), with everything else of the window and of the actor
    kept; windows the workspace does not list, and windows without
    actor, are left as they are; the canvas states keep their viewport
    offsets. *)
Theorem removeAllClips_resets (m : Manager.t) (sh : Shell.t) :
  let st' := removeAllClips m sh in
  Manager._scrollOffset (fst st') = 0 /\
  Manager._clippedWindows (fst st') = ∅ /\
  Manager._canvasStates (fst st') = Manager._canvasStates m /\
  Manager._scrollAnimationId (fst st') = Manager._scrollAnimationId m /\
  forall ref w,
    Shell.windows sh !! ref = Some w ->
    (ref ∈ Shell.active_workspace_windows sh ->
     Shell.windows (snd st') !! ref =
       Some match MetaWindow.compositor_private w with
            | Some actor =>
                MetaWindow.with_actor
                  (Some (Actor.set_translation 0 0 0 (Actor.remove_clip actor))) w
            | None => w
            end) /\
    (ref ∉ Shell.active_workspace_windows sh -> Shell.windows (snd st') !! ref = Some w).
Proof.
  cbv zeta. unfold removeAllClips. cbn [fst snd].
  do 4 (split; [reflexivity|]).
  intros ref w Hw. split.
  - intros Hin. cbn.
    apply (removeAllClips_fold (Shell.active_workspace_windows sh) (Shell.windows sh) ref w);
      auto.
  - intros Hn. cbn. rewrite <- Hw.
    apply (removeAllClips_fold (Shell.active_workspace_windows sh) (Shell.windows sh) ref w);
      auto.
Qed.

(** ** More on scrollTo *)






(** ** ensureViewport, getViewportBounds, resetViewport *)





(** X16: [getViewportBounds] gives the rectangle the visibility tests
    compare with.  A window is fully visible exactly when its frame
    lies between [left] and [right]; it is partially visible exactly
    when the frame overlaps that span without lying inside it; the
    bounds are as wide and as high as the work area, and asking for
    them touches the registry no more than [getCanvasState] does. *)
Theorem getViewportBounds_visibility (m : Manager.t) (w : MetaWindow.t) :
  let workspace := MetaWindow.workspace w in
  let monitorIndex := MetaWindow.monitor w in
  let workArea := Workspace.get_work_area_for_monitor workspace monitorIndex in
  let bounds := snd (getViewportBounds m monitorIndex workspace) in
  let windowLeft := Rect.x (MetaWindow.frame_rect w) in
  let windowRight := windowLeft + Rect.width (MetaWindow.frame_rect w) in
  (snd (isWindowFullyVisible m (Some w)) = true <->
   Bounds.left bounds <= windowLeft /\ windowRight <= Bounds.right bounds) /\
  (snd (isWindowPartiallyVisible m (Some w)) = true <->
   (windowLeft < Bounds.right bounds /\ Bounds.left bounds < windowRight) /\
   ~ (Bounds.left bounds <= windowLeft /\ windowRight <= Bounds.right bounds)) /\
  Bounds.right bounds - Bounds.left bounds == Rect.width workArea /\
  Bounds.bottom bounds - Bounds.top bounds == Rect.height workArea /\
  Bounds.top bounds = Rect.y workArea /\
  fst (getViewportBounds m monitorIndex workspace)
    = fst (getCanvasState m monitorIndex workspace).
Proof.
  clear window_system.
  cbv zeta. unfold getViewportBounds, isWindowFullyVisible, isWindowPartiallyVisible.
  destruct (getCanvasState m (MetaWindow.monitor w) (MetaWindow.workspace w)) as [m1 state].
  cbn [fst snd Bounds.left Bounds.right Bounds.top Bounds.bottom].
  unfold Js.geb, Js.gtb.
  rewrite !andb_true_iff, negb_true_iff, andb_false_iff, !leb_true, !ltb_true, !leb_false.
  split; [tauto|]. split; [|repeat split; ring].
  split.
  - intros [H1 H2]. split; [exact H1|]. intros [H3 H4]. destruct H2; lra.
  - intros [H1 Hn]. split; [exact H1|].
    destruct (Qlt_le_dec (Rect.x (MetaWindow.frame_rect w))
                (Rect.x (Workspace.get_work_area_for_monitor (MetaWindow.workspace w)
                           (MetaWindow.monitor w)) + CanvasState.viewportX state))
      as [Hlt|Hle]; [left; exact Hlt|right].
    apply Qnot_le_lt. intros Hr. apply Hn. split; assumption.
Qed.

(** X17: [resetViewport] puts the offset of the state of (workspace,
    monitor) back to 0, creating the state if need be, and mirrors it
    in the scroll offset; the viewport bounds are then the work area's;
    other states are not touched, and an animation that is in flight
    is not cancelled. *)
Theorem resetViewport_centres (monitorIndex : Z) (workspace : Workspace.t)
    (m : Manager.t) (sh : Shell.t) :
  let key := (Workspace.index workspace, monitorIndex) in
  let workArea := Workspace.get_work_area_for_monitor workspace monitorIndex in
  let st' := resetViewport monitorIndex workspace (m, sh) in
  Manager._scrollOffset (fst st') = 0 /\
  Manager._canvasStates (fst st') !! key
    = Some (CanvasState.with_viewportX 0 (snd (getCanvasState m monitorIndex workspace))) /\
  (forall key', key' <> key ->
     Manager._canvasStates (fst st') !! key' = Manager._canvasStates m !! key') /\
  Manager._scrollAnimationId (fst st') = Manager._scrollAnimationId m /\
  Shell.removed_sources (snd st') = Shell.removed_sources sh /\
  Shell.windows (snd st') = Shell.windows sh /\
  let bounds := snd (getViewportBounds (fst st') monitorIndex workspace) in
  Bounds.left bounds == Rect.x workArea /\
  Bounds.right bounds == Rect.x workArea + Rect.width workArea.
Proof.
  cbv zeta. unfold resetViewport, getViewportBounds.
  assert (Hother : forall key',
             key' <> (Workspace.index workspace, monitorIndex) ->
             Manager._canvasStates (fst (getCanvasState m monitorIndex workspace)) !! key'
             = Manager._canvasStates m !! key').
  { intros key' Hne. unfold getCanvasState.
    destruct (Manager._canvasStates m !! _); cbn; [reflexivity|].
    now rewrite lookup_insert_ne. }
  assert (Hid : Manager._scrollAnimationId (fst (getCanvasState m monitorIndex workspace))
                = Manager._scrollAnimationId m).
  { unfold getCanvasState. destruct (Manager._canvasStates m !! _); reflexivity. }
  destruct (getCanvasState m monitorIndex workspace) as [m1 state]. cbn [fst snd] in *.
  unfold _applyViewport. cbn [Manager._tilingManager Manager.with_scrollOffset
                               Manager.with_canvasStates].
  assert (Hget : forall m2,
             Manager._canvasStates m2 !! (Workspace.index workspace, monitorIndex)
             = Some (CanvasState.with_viewportX 0 state) ->
             getCanvasState m2 monitorIndex workspace
             = (m2, CanvasState.with_viewportX 0 state)).
  { intros m2 H2. unfold getCanvasState. now rewrite H2. }
  destruct (Manager._tilingManager m1); cbn [fst snd];
    (rewrite Hget; [|cbn; apply lookup_insert_eq]);
    cbn; rewrite lookup_insert_eq;
    repeat split; auto; try ring;
    intros key' Hne; rewrite lookup_insert_ne; auto.
Qed.


End Canvas.

(** ** The window state store *)

Section WindowStateFacts.

Import WindowState.






End WindowStateFacts.

(** ** windowState.js: writes and reads *)

Section WindowStateRoundTrips.

Import WindowState.

Lemma get_set_eq (σ : store) (window : Z) (property : string) (value : JsValue) :
  get (set σ window property value) window property = value.
Proof.
  unfold get, set. destruct (σ !! window); now rewrite !lookup_insert_eq.
Qed.


Lemma lookup_set_ne (σ : store) (window window' : Z) (property : string) (value : JsValue) :
  window <> window' -> set σ window property value !! window' = σ !! window'.
Proof.
  intros Hne. unfold set. destruct (σ !! window); now rewrite lookup_insert_ne.
Qed.

Lemma get_set_ne (σ : store) (window window' : Z) (property property' : string)
    (value : JsValue) :
  window <> window' \/ property <> property' ->
  get (set σ window property value) window' property' = get σ window' property'.
Proof.
  intros Hne. unfold get.
  destruct (decide (window = window')) as [->|Hw].
  - destruct Hne as [Hne|Hne]; [congruence|].
    unfold set. destruct (σ !! window') eqn:E; rewrite lookup_insert_eq.
    + now rewrite lookup_insert_ne.
    + now rewrite lookup_insert_ne.
  - now rewrite lookup_set_ne.
Qed.

Lemma has_set_ne (σ : store) (window window' : Z) (property property' : string)
    (value : JsValue) :
  window <> window' \/ property <> property' ->
  has (set σ window property value) window' property' = has σ window' property'.
Proof.
  intros Hne. unfold has.
  destruct (decide (window = window')) as [->|Hw].
  - destruct Hne as [Hne|Hne]; [congruence|].
    unfold set. destruct (σ !! window') eqn:E; rewrite lookup_insert_eq.
    + now rewrite lookup_insert_ne.
    + rewrite lookup_insert_ne by exact Hne. rewrite lookup_empty.
      apply bool_decide_eq_false. intros [? ?]; discriminate.
  - now rewrite lookup_set_ne.
Qed.


Lemma has_remove_eq (σ : store) (window : Z) (property : string) :
  has (remove σ window property) window property = false.
Proof.
  unfold has, remove. destruct (σ !! window) eqn:E.
  - rewrite lookup_insert_eq, lookup_delete_eq.
    apply bool_decide_eq_false. intros [? ?]; discriminate.
  - now rewrite E.
Qed.

Lemma lookup_remove_ne (σ : store) (window window' : Z) (property : string) :
  window <> window' -> remove σ window property !! window' = σ !! window'.
Proof.
  intros Hne. unfold remove. destruct (σ !! window); [now rewrite lookup_insert_ne|reflexivity].
Qed.

Lemma get_remove_ne (σ : store) (window window' : Z) (property property' : string) :
  window <> window' \/ property <> property' ->
  get (remove σ window property) window' property' = get σ window' property'.
Proof.
  intros Hne. unfold get.
  destruct (decide (window = window')) as [->|Hw].
  - destruct Hne as [Hne|Hne]; [congruence|].
    unfold remove. destruct (σ !! window') eqn:E.
    + now rewrite lookup_insert_eq, lookup_delete_ne.
    + now rewrite E.
  - now rewrite lookup_remove_ne.
Qed.

Lemma has_remove_ne (σ : store) (window window' : Z) (property property' : string) :
  window <> window' \/ property <> property' ->
  has (remove σ window property) window' property' = has σ window' property'.
Proof.
  intros Hne. unfold has.
  destruct (decide (window = window')) as [->|Hw].
  - destruct Hne as [Hne|Hne]; [congruence|].
    unfold remove. destruct (σ !! window') eqn:E.
    + now rewrite lookup_insert_eq, lookup_delete_ne.
    + now rewrite E.
  - now rewrite lookup_remove_ne.
Qed.




End WindowStateRoundTrips.


(** ** windowHandler.js: signals *)

Section WindowHandlerFacts.

Import WindowHandler.

Lemma Qeq_bool_inject_Z (a b : Z) : Qeq_bool (inject_Z a) (inject_Z b) = (a =? b)%Z.
Proof.
  destruct (Z.eqb_spec a b) as [->|Hne].
  - apply Qeq_bool_iff. reflexivity.
  - destruct (Qeq_bool (inject_Z a) (inject_Z b)) eqn:E; [|reflexivity].
    apply Qeq_bool_iff in E. rewrite inject_Z_injective in E. contradiction.
Qed.




Lemma connect_once_new (window : Z) (key signal : string) (h : t) :
  WindowState.has (states h) window key = false ->
  connect_once window key signal h
  = mk (WindowState.set (states h) window key (Num (inject_Z (next_handler_id h))))
       (connections h ++ [(window, next_handler_id h, signal)])
       (next_handler_id h + 1)%Z (computedLayouts h) (timeouts h) (calls h).
Proof. intros Hk. unfold connect_once. now rewrite Hk. Qed.




Lemma connectWindowSignals_fresh (window : Z) (isExcluded : bool) (workspace : option Z)
    (h : t) :
  states h !! window = None ->
  connectWindowSignals window isExcluded workspace h
  = let n := next_handler_id h in
    let σ := WindowState.set (states h) window "workspaceSignalId" (Num (inject_Z n)) in
    let σ := WindowState.set σ window "aboveSignalId" (Num (inject_Z (n + 1))) in
    let σ := WindowState.set σ window "stickySignalId" (Num (inject_Z (n + 2))) in
    let σ := WindowState.set σ window "positionSignalId" (Num (inject_Z (n + 3))) in
    let σ := WindowState.set σ window "sizeSignalId" (Num (inject_Z (n + 4))) in
    let σ := WindowState.set σ window "previousExclusionState" (Bool isExcluded) in
    mk (match workspace with
        | Some index => WindowState.set σ window "previousWorkspace" (Num (inject_Z index))
        | None => σ
        end)
       (connections h
        ++ [(window, n, "workspace-changed"); (window, (n + 1)%Z, "notify::above");
            (window, (n + 2)%Z, "notify::on-all-workspaces");
            (window, (n + 3)%Z, "position-changed"); (window, (n + 4)%Z, "size-changed")])
       (n + 5)%Z (computedLayouts h) (timeouts h) (calls h).
Proof.
  intros Hnone.
  assert (Hno : forall key, WindowState.has (states h) window key = false)
    by (intros key; unfold WindowState.has; now rewrite Hnone).
  unfold connectWindowSignals.
  rewrite (connect_once_new window "workspaceSignalId" _ h) by apply Hno.
  rewrite (connect_once_new window "aboveSignalId")
    by (cbn [states]; rewrite ?has_set_ne by (right; discriminate); apply Hno).
  cbn [states connections next_handler_id computedLayouts timeouts calls].
  rewrite (connect_once_new window "stickySignalId")
    by (cbn [states]; rewrite ?has_set_ne by (right; discriminate); apply Hno).
  cbn [states connections next_handler_id computedLayouts timeouts calls].
  rewrite (connect_once_new window "positionSignalId")
    by (cbn [states]; rewrite ?has_set_ne by (right; discriminate); apply Hno).
  cbn [states connections next_handler_id computedLayouts timeouts calls].
  rewrite (connect_once_new window "sizeSignalId")
    by (cbn [states]; rewrite ?has_set_ne by (right; discriminate); apply Hno).
  cbn [states connections next_handler_id computedLayouts timeouts calls with_states].
  rewrite <- !app_assoc. cbn [app].
  replace (next_handler_id h + 1 + 1)%Z with (next_handler_id h + 2)%Z by lia.
  replace (next_handler_id h + 2 + 1)%Z with (next_handler_id h + 3)%Z by lia.
  replace (next_handler_id h + 3 + 1)%Z with (next_handler_id h + 4)%Z by lia.
  replace (next_handler_id h + 4 + 1)%Z with (next_handler_id h + 5)%Z by lia.
  destruct workspace; reflexivity.
Qed.

Lemma truthy_handler_id (n : Z) : (0 < n)%Z -> truthy (Num (inject_Z n)) = true.
Proof.
  intros Hn. cbn. change 0 with (inject_Z 0). rewrite Qeq_bool_inject_Z.
  apply negb_true_iff, Z.eqb_neq. lia.
Qed.

Lemma disconnect_stored_connected (window : Z) (key : string) (n : Z) (h : t) :
  (0 < n)%Z ->
  WindowState.get (states h) window key = Num (inject_Z n) ->
  disconnect_stored window key h
  = mk (WindowState.remove (states h) window key)
       (filter (fun c => (c.1.1, c.1.2) <> (window, n)) (connections h))
       (next_handler_id h) (computedLayouts h) (timeouts h) (calls h).
Proof.
  intros Hn Hget. unfold disconnect_stored. rewrite Hget, truthy_handler_id by exact Hn.
  unfold disconnect, with_states.
  cbn [states connections next_handler_id computedLayouts timeouts calls].
  f_equal. apply list_filter_iff. intros [[a b] s]. cbn.
  rewrite Qeq_bool_inject_Z.
  destruct (Z.eqb_spec a window), (Z.eqb_spec b n); cbn; naive_solver.
Qed.

Lemma filter_all {A : Type} (P : A -> Prop) `{!forall x, Decision (P x)} (l : list A) :
  Forall P l -> filter P l = l.
Proof.
  induction 1 as [|x l Hx Hl IH]; [reflexivity|].
  rewrite filter_cons_True by exact Hx. now rewrite IH.
Qed.

Lemma empty_state (σ : WindowState.store) (window : Z) :
  is_Some (σ !! window) ->
  (forall property, WindowState.has σ window property = false) ->
  WindowState.getState σ window = Some ∅.
Proof.
  unfold WindowState.getState, WindowState.has. intros [state Hs] Hno. rewrite Hs in *.
  f_equal. apply map_eq. intros property. rewrite lookup_empty.
  specialize (Hno property). apply bool_decide_eq_false in Hno.
  destruct (state !! property) eqn:E; [|reflexivity]. exfalso. apply Hno. eauto.
Qed.

Lemma set_is_Some (σ : WindowState.store) (window : Z) (property : string) (value : JsValue) :
  is_Some (WindowState.set σ window property value !! window).
Proof.
  unfold WindowState.set. destruct (σ !! window); rewrite lookup_insert_eq; eauto.
Qed.

Lemma remove_is_Some (σ : WindowState.store) (window : Z) (property : string) :
  is_Some (σ !! window) -> is_Some (WindowState.remove σ window property !! window).
Proof.
  intros [state Hs]. unfold WindowState.remove. rewrite Hs, lookup_insert_eq. eauto.
Qed.

(** X23: the signals of a window that had no state are connected with
    five fresh handler ids, in the order workspace, above, sticky,
    position, size.  Disconnecting them afterwards disconnects four of
    the five: the handler of [notify::on-all-workspaces] stays
    connected, although its stored id is dropped with the others.  The
    state object of the window is left behind, empty, and the layout
    cache no longer holds the window. *)
Theorem disconnect_after_connect (window : Z) (isExcluded : bool) (workspace : option Z)
    (h : t) :
  states h !! window = None ->
  (0 < next_handler_id h)%Z ->
  Forall (fun c => (c.1.2 < next_handler_id h)%Z) (connections h) ->
  let n := next_handler_id h in
  let h1 := connectWindowSignals window isExcluded workspace h in
  let h2 := disconnectWindowSignals window h1 in
  connections h1
  = connections h
    ++ [(window, n, "workspace-changed"); (window, (n + 1)%Z, "notify::above");
        (window, (n + 2)%Z, "notify::on-all-workspaces");
        (window, (n + 3)%Z, "position-changed"); (window, (n + 4)%Z, "size-changed")] /\
  connections h2 = connections h ++ [(window, (n + 2)%Z, "notify::on-all-workspaces")] /\
  WindowState.getState (states h2) window = Some ∅ /\
  window ∉ computedLayouts h2.
Proof.
  intros Hnone Hpos Hfresh n h1 h2.
  assert (Hno : forall key, WindowState.has (states h) window key = false)
    by (intros key; unfold WindowState.has; now rewrite Hnone).
  assert (Hold : forall k, (0 <= k)%Z ->
            Forall (fun c : Z * Z * string => (c.1.1, c.1.2) <> (window, (n + k)%Z))
                   (connections h)).
  { intros k Hk. eapply Forall_impl; [exact Hfresh|]. intros [[a b] s]; cbn.
    intros Hlt [=]. unfold n in *. lia. }
  unfold h2, h1. rewrite connectWindowSignals_fresh by exact Hnone. cbv zeta. fold n.
  split; [reflexivity|].
  unfold disconnectWindowSignals.
  rewrite (disconnect_stored_connected window "workspaceSignalId" n)
    by (first [exact Hpos
              |destruct workspace; cbn [states];
               repeat (rewrite get_set_ne by (right; discriminate)); apply get_set_eq]).
  cbn [states connections next_handler_id computedLayouts timeouts calls].
  rewrite (disconnect_stored_connected window "positionSignalId" (n + 3))
    by (first [unfold n; lia
              |destruct workspace; cbn [states];
               repeat (rewrite get_remove_ne by (right; discriminate));
               repeat (rewrite get_set_ne by (right; discriminate)); apply get_set_eq]).
  cbn [states connections next_handler_id computedLayouts timeouts calls].
  rewrite (disconnect_stored_connected window "sizeSignalId" (n + 4))
    by (first [unfold n; lia
              |destruct workspace; cbn [states];
               repeat (rewrite get_remove_ne by (right; discriminate));
               repeat (rewrite get_set_ne by (right; discriminate)); apply get_set_eq]).
  cbn [states connections next_handler_id computedLayouts timeouts calls].
  rewrite (disconnect_stored_connected window "aboveSignalId" (n + 1))
    by (first [unfold n; lia
              |destruct workspace; cbn [states];
               repeat (rewrite get_remove_ne by (right; discriminate));
               repeat (rewrite get_set_ne by (right; discriminate)); apply get_set_eq]).
  cbn [states connections next_handler_id computedLayouts timeouts calls].
  match goal with
  | |- context [truthy ?v] =>
      replace v with (Num (inject_Z (n + 2)))
        by (symmetry; destruct workspace;
            repeat (rewrite get_remove_ne by (right; discriminate));
            repeat (rewrite get_set_ne by (right; discriminate)); apply get_set_eq)
  end.
  rewrite truthy_handler_id by (unfold n; lia).
  unfold delete_layout, with_states.
  cbn [states connections next_handler_id computedLayouts timeouts calls].
  split; [|split].
  - pose proof (Hold 0%Z ltac:(lia)) as H0. rewrite Z.add_0_r in H0.
    pose proof (Hold 1%Z ltac:(lia)) as H1.
    pose proof (Hold 3%Z ltac:(lia)) as H3.
    pose proof (Hold 4%Z ltac:(lia)) as H4.
    repeat first
      [ rewrite filter_app
      | rewrite (filter_all _ (connections h)) by assumption
      | rewrite filter_cons_True by (cbn; intros [=]; lia)
      | rewrite filter_cons_False by (cbn; intros Hc; apply Hc; reflexivity)
      | rewrite filter_nil ].
    reflexivity.
  - apply empty_state.
    + repeat apply remove_is_Some. destruct workspace; apply set_is_Some.
    + intros property.
      destruct (decide (property = "previousWorkspace")) as [->|N1];
        [apply has_remove_eq|rewrite has_remove_ne by (now right)].
      destruct (decide (property = "previousExclusionState")) as [->|N2];
        [apply has_remove_eq|rewrite has_remove_ne by (now right)].
      destruct (decide (property = "stickySignalId")) as [->|N3];
        [apply has_remove_eq|rewrite has_remove_ne by (now right)].
      destruct (decide (property = "aboveSignalId")) as [->|N4];
        [apply has_remove_eq|rewrite has_remove_ne by (now right)].
      destruct (decide (property = "sizeSignalId")) as [->|N5];
        [apply has_remove_eq|rewrite has_remove_ne by (now right)].
      destruct (decide (property = "positionSignalId")) as [->|N6];
        [apply has_remove_eq|rewrite has_remove_ne by (now right)].
      destruct (decide (property = "workspaceSignalId")) as [->|N7];
        [apply has_remove_eq|rewrite has_remove_ne by (now right)].
      destruct workspace; rewrite !has_set_ne by (now right); apply Hno.
  - rewrite elem_of_difference, elem_of_singleton. tauto.
Qed.

Lemma handleExclusionStateChange_records (window : Z) (isNowExcluded : bool)
    (workspace : option Z) (monitor : Z) (frame : Rect.t) (h : t) :
  WindowState.get
    (states (handleExclusionStateChange window isNowExcluded workspace monitor frame h))
    window "previousExclusionState" = Bool isNowExcluded.
Proof.
  unfold handleExclusionStateChange.
  destruct (strict_eq_bool _ _); [|destruct isNowExcluded]; cbn; apply get_set_eq.
Qed.

Lemma handleExclusionStateChange_from (window : Z) (wasExcluded isNowExcluded : bool)
    (workspace : option Z) (monitor : Z) (frame : Rect.t) (h : t) :
  or_false (WindowState.get (states h) window "previousExclusionState") = Bool wasExcluded ->
  let h' := handleExclusionStateChange window isNowExcluded workspace monitor frame h in
  timeouts h'
  = (if Bool.eqb wasExcluded isNowExcluded then timeouts h
     else if isNowExcluded
          then timeouts h
               ++ [RetileWithout window workspace monitor (Rect.width frame)
                                 (Rect.height frame)]
          else timeouts h ++ [IncludeArrival window workspace monitor]) /\
  calls h' = calls h /\ connections h' = connections h.
Proof.
  intros Hwas. unfold handleExclusionStateChange. rewrite Hwas. cbn [strict_eq_bool].
  destruct (Bool.eqb wasExcluded isNowExcluded); [|destruct isNowExcluded];
    cbn; repeat split; reflexivity.
Qed.

(** X24: a change of exclusion is acted on once.  Each notification
    records the answer it is given.  A second notification with the
    same answer arms nothing; one with the opposite answer arms exactly
    one timeout, the retile without the window (with the size of its
    frame) when the window is now excluded and the arrival of the
    window otherwise.  No manager is called and no handler is touched
    before the timeout fires. *)
Theorem handleExclusionStateChange_debounced (window : Z) (isNowExcluded : bool)
    (workspace workspace' : option Z) (monitor monitor' : Z) (frame frame' : Rect.t)
    (h : t) :
  let h1 := handleExclusionStateChange window isNowExcluded workspace monitor frame h in
  let same := handleExclusionStateChange window isNowExcluded workspace' monitor' frame' h1 in
  let flipped :=
    handleExclusionStateChange window (negb isNowExcluded) workspace' monitor' frame' h1 in
  WindowState.get (states h1) window "previousExclusionState" = Bool isNowExcluded /\
  timeouts same = timeouts h1 /\
  timeouts flipped
  = timeouts h1
    ++ [if isNowExcluded then IncludeArrival window workspace' monitor'
        else RetileWithout window workspace' monitor' (Rect.width frame')
                           (Rect.height frame')] /\
  calls same = calls h /\ calls flipped = calls h /\
  connections same = connections h /\ connections flipped = connections h.
Proof.
  intros h1 same flipped.
  assert (Hrec : or_false (WindowState.get (states h1) window "previousExclusionState")
                 = Bool isNowExcluded).
  { unfold h1. rewrite handleExclusionStateChange_records. now destruct isNowExcluded. }
  assert (H1 : calls h1 = calls h /\ connections h1 = connections h).
  { unfold h1, handleExclusionStateChange.
    destruct (strict_eq_bool _ _); [|destruct isNowExcluded]; cbn; split; reflexivity. }
  destruct H1 as [Hc1 Hn1].
  destruct (handleExclusionStateChange_from window isNowExcluded isNowExcluded
              workspace' monitor' frame' h1 Hrec) as (Ht & Hc & Hn).
  destruct (handleExclusionStateChange_from window isNowExcluded (negb isNowExcluded)
              workspace' monitor' frame' h1 Hrec) as (Ht' & Hc' & Hn').
  fold same in Ht, Hc, Hn. fold flipped in Ht', Hc', Hn'.
  split; [apply handleExclusionStateChange_records|].
  split; [rewrite Ht; now destruct isNowExcluded|].
  split; [rewrite Ht'; now destruct isNowExcluded|].
  repeat split; congruence.
Qed.

Lemma connect_once_timeouts (window : Z) (key signal : string) (h : t) :
  timeouts (connect_once window key signal h) = timeouts h.
Proof.
  unfold connect_once. now destruct (negb (WindowState.has (states h) window key)).
Qed.

(** X25: connecting the signals of a window records its exclusion
    answer, so a later notification with that answer arms nothing and
    one with the opposite answer arms one timeout.  A window without
    any recorded state counts as not excluded before: its first
    notification arms the retile when it is excluded and nothing
    otherwise. *)
Theorem exclusion_change_after_connect (window : Z) (isExcluded isNowExcluded : bool)
    (workspace workspace' : option Z) (monitor : Z) (frame : Rect.t) (h : t) :
  let h1 := connectWindowSignals window isExcluded workspace h in
  timeouts (handleExclusionStateChange window isNowExcluded workspace' monitor frame h1)
  = (if Bool.eqb isExcluded isNowExcluded then timeouts h
     else if isNowExcluded
          then timeouts h
               ++ [RetileWithout window workspace' monitor (Rect.width frame)
                                 (Rect.height frame)]
          else timeouts h ++ [IncludeArrival window workspace' monitor]) /\
  (states h !! window = None ->
   timeouts (handleExclusionStateChange window isNowExcluded workspace' monitor frame h)
   = if isNowExcluded
     then timeouts h
          ++ [RetileWithout window workspace' monitor (Rect.width frame) (Rect.height frame)]
     else timeouts h).
Proof.
  intros h1. split.
  - assert (Hrec : or_false (WindowState.get (states h1) window "previousExclusionState")
                   = Bool isExcluded).
    { unfold h1, connectWindowSignals.
      destruct workspace; cbn [states with_states];
        rewrite ?get_set_ne by (right; discriminate); rewrite get_set_eq;
        now destruct isExcluded. }
    destruct (handleExclusionStateChange_from window isExcluded isNowExcluded
                workspace' monitor frame h1 Hrec) as (Ht & _ & _).
    rewrite Ht.
    assert (Hto : timeouts h1 = timeouts h).
    { unfold h1, connectWindowSignals.
      destruct workspace; cbn [timeouts with_states]; now rewrite !connect_once_timeouts. }
    now rewrite Hto.
  - intros Hnone.
    assert (Hrec : or_false (WindowState.get (states h) window "previousExclusionState")
                   = Bool false).
    { unfold WindowState.get. now rewrite Hnone. }
    destruct (handleExclusionStateChange_from window false isNowExcluded
                workspace' monitor frame h Hrec) as (Ht & _ & _).
    rewrite Ht. now destruct isNowExcluded.
Qed.

Lemma poll_stops (window : Z) (workspace : option Z) (monitor initialWorkspaceIndex : Z)
    (answers : list (option Z * bool)) :
  forall (attempts : Z) (h : t),
    (0 <= attempts < MAX_ATTEMPTS)%Z ->
    (Z.to_nat (MAX_ATTEMPTS - attempts) <= length answers)%nat ->
    exists (n : Z) (h' : t) (k : nat) (final : list ManagerCall),
      poll window workspace monitor initialWorkspaceIndex answers (attempts, h)
      = (false, (n, h')) /\
      (attempts <= n <= MAX_ATTEMPTS)%Z /\
      WindowState.get (states h') window "isSmartResizing" = Bool false /\
      timeouts h' = timeouts h /\
      calls h' = calls h ++ repeat (TryFitWithResize window) k ++ final /\
      (Z.of_nat k < MAX_ATTEMPTS - attempts)%Z /\
      (final = [] \/ final = [TileWorkspaceWindows workspace (Some window) monitor] \/
       final = [MoveOversizedWindow window]) /\
      (Forall (fun a => a.1 = Some initialWorkspaceIndex) answers -> final <> []).
Proof.
  unfold MAX_ATTEMPTS.
  induction answers as [|[current canFitNow] rest IH]; intros attempts h Ha Hlen.
  - cbn in Hlen. lia.
  - cbn [poll]. unfold pollForFit.
    destruct (bool_decide (current = Some initialWorkspaceIndex)) eqn:Ecur; cbn [negb].
    2:{ exists attempts, (with_states (WindowState.set (states h) window "isSmartResizing"
                                         (Bool false)) h), 0%nat, [].
        cbn. rewrite get_set_eq, app_nil_r. repeat split; try lia; [now left|].
        intros Hall. apply Forall_cons in Hall as [Hc _]. cbn in Hc.
        apply bool_decide_eq_false in Ecur. contradiction. }
    destruct canFitNow.
    { eexists _, _, 0%nat, [_]. split; [reflexivity|]. cbn.
      rewrite get_set_ne by (right; discriminate). rewrite get_set_eq.
      repeat split; try lia; [right; now left|discriminate]. }
    unfold MAX_ATTEMPTS.
    destruct (12 <=? attempts + 1)%Z eqn:E.
    { eexists _, _, 0%nat, [_]. split; [reflexivity|]. cbn.
      rewrite get_set_eq. repeat split; try lia; [right; now right|discriminate]. }
    apply Z.leb_gt in E.
    destruct (IH (attempts + 1)%Z (call (TryFitWithResize window) h))
      as (n & h' & k & final & Hp & Hn & Hs & Ht & Hc & Hk & Hf & Hstay).
    { lia. }
    { cbn [length] in Hlen. lia. }
    exists n, h', (S k), final. split; [exact Hp|].
    split; [lia|]. split; [exact Hs|]. split; [exact Ht|].
    split; [rewrite Hc; cbn; now rewrite <- app_assoc|].
    split; [lia|]. split; [exact Hf|].
    intros Hall. apply Forall_cons in Hall as [_ Hall]. now apply Hstay.
Qed.

(** X26: the fit poll ends.  Given twelve firings or more it has
    stopped after at most twelve attempts, whatever it finds; it leaves
    the window marked as not smart-resizing, arms no further timeout,
    and what it asked of the managers is fewer than twelve resize
    retries followed by at most one final request: tile the workspace
    with the window, or move the window to overflow. *)
Theorem pollForFit_terminates (window : Z) (workspace : option Z)
    (monitor initialWorkspaceIndex : Z) (answers : list (option Z * bool)) (h : t) :
  (12 <= length answers)%nat ->
  exists (n : Z) (h' : t) (k : nat) (final : list ManagerCall),
    poll window workspace monitor initialWorkspaceIndex answers (0%Z, h) = (false, (n, h')) /\
    (n <= 12)%Z /\
    WindowState.get (states h') window "isSmartResizing" = Bool false /\
    timeouts h' = timeouts h /\
    calls h' = calls h ++ repeat (TryFitWithResize window) k ++ final /\
    (k < 12)%nat /\
    (final = [] \/ final = [TileWorkspaceWindows workspace (Some window) monitor] \/
     final = [MoveOversizedWindow window]).
Proof.
  intros Hlen.
  destruct (poll_stops window workspace monitor initialWorkspaceIndex answers 0%Z h)
    as (n & h' & k & final & Hp & Hn & Hs & Ht & Hc & Hk & Hf & _).
  { unfold MAX_ATTEMPTS. lia. }
  { unfold MAX_ATTEMPTS. cbn. lia. }
  unfold MAX_ATTEMPTS in *.
  exists n, h', k, final. repeat split; try assumption; lia.
Qed.

(** X27: a window that is included again ends tiled or in overflow.
    With a valid work area, and as long as the window stays on its
    workspace while the poll runs, the arrival and the poll it may arm
    ask for resize retries, twelve at most, and then for exactly one
    of the two: tile the workspace with the window, or move the window
    to overflow.  The poll is armed only when the window did not fit
    and the first resize succeeded; a window that fits is tiled at
    once without any resize. *)
Theorem include_arrival_settles (window index monitor : Z) (workArea : Rect.t)
    (canFit resizeSuccess : bool) (answers : list (option Z * bool)) (h : t) :
  (12 <= length answers)%nat ->
  Forall (fun a => a.1 = Some index) answers ->
  let h1 :=
    include_arrival window (Some index) monitor (Some workArea) canFit resizeSuccess h in
  let h2 :=
    if negb canFit && resizeSuccess
    then (poll window (Some index) monitor index answers (0%Z, h1)).2.2
    else h1 in
  timeouts h1
  = timeouts h ++ (if negb canFit && resizeSuccess then [PollForFit window index] else []) /\
  exists (k : nat) (final : ManagerCall),
    calls h2 = calls h ++ repeat (TryFitWithResize window) k ++ [final] /\
    (k <= 12)%nat /\
    (final = TileWorkspaceWindows (Some index) (Some window) monitor \/
     final = MoveOversizedWindow window) /\
    (canFit = true ->
     k = 0%nat /\ final = TileWorkspaceWindows (Some index) (Some window) monitor).
Proof.
  intros Hlen Hstay h1 h2. unfold h2, h1, include_arrival.
  destruct canFit; cbn [negb andb].
  { split; [cbn; now rewrite app_nil_r|].
    exists 0%nat, (TileWorkspaceWindows (Some index) (Some window) monitor).
    cbn. repeat split; try lia. now left. }
  destruct resizeSuccess.
  2:{ split; [cbn; now rewrite app_nil_r|].
      exists 1%nat, (MoveOversizedWindow window).
      cbn. rewrite <- app_assoc. repeat split; try lia; try discriminate. now right. }
  split; [reflexivity|].
  match goal with
  | |- context [poll _ _ _ _ _ (0%Z, ?h0)] =>
      destruct (poll_stops window (Some index) monitor index answers 0%Z h0)
        as (n & h' & k & final & Hp & Hn & Hs & Ht & Hc & Hk & Hf & Hne)
  end.
  { unfold MAX_ATTEMPTS. lia. }
  { unfold MAX_ATTEMPTS. cbn. lia. }
  rewrite Hp. cbn [fst snd]. specialize (Hne Hstay). unfold MAX_ATTEMPTS in *.
  destruct Hf as [->|[->| ->]]; [contradiction| |].
  - exists (S k), (TileWorkspaceWindows (Some index) (Some window) monitor).
    rewrite Hc. cbn. rewrite <- app_assoc.
    repeat split; try lia; try discriminate. now left.
  - exists (S k), (MoveOversizedWindow window).
    rewrite Hc. cbn. rewrite <- app_assoc.
    repeat split; try lia; try discriminate. now right.
Qed.

End WindowHandlerFacts.


(** ** dragHandler.js: ghost windows *)

Section DragHandlerFacts.

Import DragHandler.

Lemma restore_opacity_lookup (win win' : Z) (ws : gmap Z MetaWindow.t) :
  restore_opacity win ws !! win'
  = if bool_decide (win = win')
    then match ws !! win' with
         | Some w =>
             Some match MetaWindow.compositor_private w with
                  | Some actor => MetaWindow.with_actor (Some (Actor.set_opacity 255 actor)) w
                  | None => w
                  end
         | None => None
         end
    else ws !! win'.
Proof.
  unfold restore_opacity. case_bool_decide as Hw.
  - subst win'. destruct (ws !! win) as [w|] eqn:E; [|exact E].
    destruct (MetaWindow.compositor_private w); [apply lookup_insert_eq|exact E].
  - destruct (ws !! win) as [w|]; [|reflexivity].
    destruct (MetaWindow.compositor_private w); [now apply lookup_insert_ne|reflexivity].
Qed.

Lemma restore_ghosts_lookup (ghosts : list Z) (win : Z) :
  forall ws : gmap Z MetaWindow.t,
    fold_left (fun ws win => restore_opacity win ws) ghosts ws !! win
    = if bool_decide (win ∈ ghosts)
      then match ws !! win with
           | Some w =>
               Some match MetaWindow.compositor_private w with
                    | Some actor =>
                        MetaWindow.with_actor (Some (Actor.set_opacity 255 actor)) w
                    | None => w
                    end
           | None => None
           end
      else ws !! win.
Proof.
  induction ghosts as [|g ghosts IH]; intros ws; cbn [fold_left].
  - reflexivity.
  - rewrite IH, restore_opacity_lookup.
    destruct (decide (g = win)) as [->|Hne].
    + rewrite (bool_decide_eq_true_2 (win = win)) by reflexivity.
      rewrite (bool_decide_eq_true_2 (win ∈ win :: ghosts)) by apply list_elem_of_here.
      destruct (ws !! win) as [w|]; [|now case_bool_decide].
      case_bool_decide; [|reflexivity].
      destruct (MetaWindow.compositor_private w) eqn:Ea; cbn; [|now rewrite Ea].
      reflexivity.
    + rewrite (bool_decide_eq_false_2 (g = win)) by exact Hne.
      assert (Hiff : bool_decide (win ∈ g :: ghosts) = bool_decide (win ∈ ghosts)).
      { apply bool_decide_ext. rewrite elem_of_cons. split; [intros [?|?]|]; auto.
        congruence. }
      now rewrite Hiff.
Qed.

Lemma move_ghosts_fold (ghosts : list Z) :
  forall (ws : gmap Z MetaWindow.t) (moved : list Z),
    fold_left
      (fun (acc : gmap Z MetaWindow.t * list Z) win =>
         (restore_opacity win acc.1, acc.2 ++ [win]))
      ghosts (ws, moved)
    = (fold_left (fun ws win => restore_opacity win ws) ghosts ws, moved ++ ghosts).
Proof.
  induction ghosts as [|g ghosts IH]; intros ws moved; cbn [fold_left].
  - now rewrite app_nil_r.
  - cbn [fst snd]. rewrite IH. now rewrite <- app_assoc.
Qed.

(** X28: both ways of letting the ghost windows go restore them and
    forget them.  Afterwards the list of ghost windows is empty, every
    window that was on it and has an actor has that actor at opacity
    255 and is otherwise as it was, and no other window is touched.
    [clearGhostWindows] moves nothing; [moveGhostWindowsToOverflow]
    hands each ghost window to [moveOversizedWindow] once per entry, in
    the order of the list. *)
Theorem ghost_windows_released (d : t) (win : Z) :
  let d1 := clearGhostWindows d in
  let d2 := moveGhostWindowsToOverflow d in
  _edgeTileGhostWindows d1 = [] /\ _edgeTileGhostWindows d2 = [] /\
  moved_to_overflow d1 = moved_to_overflow d /\
  moved_to_overflow d2 = moved_to_overflow d ++ _edgeTileGhostWindows d /\
  windows d2 = windows d1 /\
  windows d1 !! win
  = match windows d !! win with
    | Some w =>
        Some (if bool_decide (win ∈ _edgeTileGhostWindows d)
              then match MetaWindow.compositor_private w with
                   | Some actor =>
                       MetaWindow.with_actor (Some (Actor.set_opacity 255 actor)) w
                   | None => w
                   end
              else w)
    | None => None
    end.
Proof.
  intros d1 d2. unfold d1, d2, clearGhostWindows, moveGhostWindowsToOverflow.
  destruct d as [ghosts ws moved]. cbn [_edgeTileGhostWindows windows moved_to_overflow].
  assert (Hlook :
    fold_left (fun ws win => restore_opacity win ws) ghosts ws !! win
    = match ws !! win with
      | Some w =>
          Some (if bool_decide (win ∈ ghosts)
                then match MetaWindow.compositor_private w with
                     | Some actor =>
                         MetaWindow.with_actor (Some (Actor.set_opacity 255 actor)) w
                     | None => w
                     end
                else w)
      | None => None
      end).
  { rewrite restore_ghosts_lookup. destruct (ws !! win); now case_bool_decide. }
  destruct ghosts as [|g ghosts].
  - cbn. rewrite app_nil_r. repeat split. exact Hlook.
  - rewrite move_ghosts_fold. cbn [_edgeTileGhostWindows windows moved_to_overflow fst snd].
    repeat split. exact Hlook.
Qed.

End DragHandlerFacts.


(** ** The theorems at concrete inputs *)

(** Closed comparisons of rationals, by evaluation. *)
Ltac q_decide :=
  lazymatch goal with
  | |- ~ _ => let H := fresh in intros H; vm_compute in H; first [discriminate H | apply H; reflexivity]
  | |- _ => vm_compute; first [reflexivity | let H := fresh in intros H; discriminate H]
  end.

Lemma applyViewportClip_inside_viewport_witness :
  let '(m', metaWindow', returned) :=
    applyViewportClip (Manager.new false) (Sample.window 1 100)
                      Sample.target_inside Sample.viewport in
  (exists actor',
      MetaWindow.compositor_private metaWindow' = Some actor' /\
      Actor.clip actor' = None /\
      Actor.translation_x actor' = 0 /\
      Actor.translation_y actor' = 0 /\
      Actor.translation_z actor' = 0) /\
  (1%Z ∉ Manager._clippedWindows m') /\
  returned = Pos.mk 100 50.
Proof.
  apply (applyViewportClip_inside_viewport (Manager.new false) (Sample.window 1 100)
           Sample.actor Sample.target_inside Sample.viewport);
    [reflexivity | q_decide | q_decide | q_decide].
Defined.

Lemma applyViewportClip_left_clamp_only_witness :
  Pos.x (snd (applyViewportClip (Manager.new false) (Sample.window 1 100)
                                Sample.target_left Sample.viewport)) = 0 /\
  Pos.x (snd (applyViewportClip (Manager.new false) (Sample.window 1 100)
                                Sample.target_right Sample.viewport)) = 1000.
Proof.
  split.
  - destruct (applyViewportClip_left_clamp_only (Manager.new false) (Sample.window 1 100)
                Sample.actor Sample.target_left Sample.viewport eq_refl) as (_ & H & _).
    apply H. q_decide.
  - destruct (applyViewportClip_left_clamp_only (Manager.new false) (Sample.window 1 100)
                Sample.actor Sample.target_right Sample.viewport eq_refl) as (_ & _ & H & _).
    apply H. q_decide.
Defined.










Lemma applyViewportClip_clip_within_surface_witness :
  let '(m', metaWindow', returned) :=
    applyViewportClip (Manager.new false) (Sample.window 1 100)
                      Sample.target_right Sample.viewport in
  exists actor',
    MetaWindow.compositor_private metaWindow' = Some actor' /\
    match Actor.clip actor' with
    | None => True
    | Some r =>
        r = Rect.mk 0 0 0 0 \/
        (0 <= Rect.x r /\ 0 < Rect.width r /\
         Rect.x r + Rect.width r <= Rect.width (MetaWindow.buffer_rect (Sample.window 1 100)) /\
         Rect.y r = 0 /\
         Rect.height r = Rect.height (MetaWindow.buffer_rect (Sample.window 1 100)) /\
         MetaWindow.id (Sample.window 1 100) ∈ Manager._clippedWindows m')
    end.
Proof.
  apply (applyViewportClip_clip_within_surface (Manager.new false) (Sample.window 1 100)
           Sample.actor Sample.target_right Sample.viewport).
  reflexivity.
Defined.

Lemma applyViewportClip_hides_off_viewport_witness :
  let '(m', metaWindow', returned) :=
    applyViewportClip (Manager.new false) (Sample.window 1 100)
                      (Rect.mk 2000 50 400 300) Sample.viewport in
  exists actor',
    MetaWindow.compositor_private metaWindow' = Some actor' /\
    Actor.clip actor' = Some (Rect.mk 0 0 0 0) /\
    Manager._clippedWindows m' = Manager._clippedWindows (Manager.new false).
Proof.
  apply (applyViewportClip_hides_off_viewport (Manager.new false) (Sample.window 1 100)
           Sample.actor (Rect.mk 2000 50 400 300) Sample.viewport).
  - reflexivity.
  - intros [_ H]. vm_compute in H. apply H. reflexivity.
  - right. q_decide.
Defined.

Lemma applyViewportClip_shows_at_target_witness :
  let '(m', metaWindow', returned) :=
    applyViewportClip (Manager.new false) (Sample.window 1 100)
                      Sample.target_right Sample.viewport in
  exists actor',
    MetaWindow.compositor_private metaWindow' = Some actor' /\
    Pos.x returned + Actor.translation_x actor'
      == Js.Math_floor (Rect.x Sample.target_right + Manager._scrollOffset (Manager.new false))
         + Js.or_zero (MetaWindow._mosaicPositionCorrectionX (Sample.window 1 100)) /\
    Actor.translation_y actor'
      = Js.or_zero (MetaWindow._mosaicPositionCorrectionY (Sample.window 1 100)) /\
    Actor.translation_z actor' = 0 /\
    Actor.relayout_queued actor' = true.
Proof.
  apply (applyViewportClip_shows_at_target (Manager.new false) (Sample.window 1 100)
           Sample.actor Sample.target_right Sample.viewport).
  - reflexivity.
  - intros [_ H]. vm_compute in H. apply H. reflexivity.
Defined.


Lemma updateClones_never_moves_witness :
  Manager._scrollOffset
    (fst (updateClones Sample.partial (Some [1%Z; 2%Z]) Sample.workspace 0 Sample.tileInfo
            (Manager.new false, Sample.shell))) = 0 /\
  Shell.next_source_id
    (snd (updateClones Sample.partial (Some [1%Z; 2%Z]) Sample.workspace 0 Sample.tileInfo
            (Manager.new false, Sample.shell))) = 1%Z /\
  exists w',
    Shell.windows
      (snd (updateClones Sample.partial (Some [1%Z; 2%Z]) Sample.workspace 0 Sample.tileInfo
              (Manager.new false, Sample.shell))) !! 1%Z = Some w' /\
    MetaWindow.frame_rect w' = MetaWindow.frame_rect (Sample.window 1 100).
Proof.
  destruct (updateClones_never_moves Sample.partial (Manager.new false) Sample.shell
              [1%Z; 2%Z] Sample.workspace 0 Sample.tileInfo 1%Z (Sample.window 1 100))
    as (Hoff & _ & Hnext & _ & _ & w' & Hlook & Hsame & _); [reflexivity|].
  split; [exact Hoff|]. split; [exact Hnext|].
  exists w'. split; [exact Hlook|]. destruct Hsame as (_ & Hframe & _). exact Hframe.
Defined.



Lemma disconnect_after_connect_witness :
  WindowHandler.connections
    (WindowHandler.disconnectWindowSignals 5
       (WindowHandler.connectWindowSignals 5 false (Some 0%Z)
          Sample.handler))
  = [(5%Z, 3%Z, "notify::on-all-workspaces")] /\
  WindowState.getState
    (WindowHandler.states
       (WindowHandler.disconnectWindowSignals 5
          (WindowHandler.connectWindowSignals 5 false (Some 0%Z)
             Sample.handler))) 5 = Some ∅.
Proof.
  destruct (disconnect_after_connect 5 false (Some 0%Z) Sample.handler)
    as (_ & Hconn & Hstate & _); [reflexivity | reflexivity | constructor |].
  split; [exact Hconn|exact Hstate].
Defined.

Lemma pollForFit_terminates_witness :
  exists (n : Z) (h' : WindowHandler.t) (k : nat) (final : list WindowHandler.ManagerCall),
    WindowHandler.poll 5 (Some 0%Z) 0 0 (repeat (Some 0%Z, false) 12)
                       (0%Z, Sample.handler) = (false, (n, h')) /\
    (n <= 12)%Z /\
    WindowState.get (WindowHandler.states h') 5 "isSmartResizing" = Bool false /\
    WindowHandler.timeouts h' = [] /\
    WindowHandler.calls h'
    = [] ++ repeat (WindowHandler.TryFitWithResize 5) k ++ final /\
    (k < 12)%nat /\
    (final = [] \/
     final = [WindowHandler.TileWorkspaceWindows (Some 0%Z) (Some 5%Z) 0] \/
     final = [WindowHandler.MoveOversizedWindow 5]).
Proof.
  apply (pollForFit_terminates 5 (Some 0%Z) 0 0 (repeat (Some 0%Z, false) 12)
           Sample.handler).
  simpl. lia.
Defined.

Lemma include_arrival_settles_witness :
  WindowHandler.timeouts
    (WindowHandler.include_arrival 5 (Some 0%Z) 0 (Some Sample.workArea) false true
       Sample.handler)
  = [WindowHandler.PollForFit 5 0].
Proof.
  destruct (include_arrival_settles 5 0 0 Sample.workArea false true
              (repeat (Some 0%Z, false) 12) Sample.handler)
    as (Htime & _); [simpl; lia | repeat constructor |].
  exact Htime.
Defined.


Lemma getCanvasState_lazy_witness :
  snd (getCanvasState (Manager.new false) 0 Sample.workspace)
  = CanvasState.mk Sample.workArea 0 Sample.workspace 0 CanvasPhase.PHASE_1.
Proof.
  destruct (getCanvasState_lazy (Manager.new false) 0 Sample.workspace) as (_ & H & _).
  apply H. reflexivity.
Defined.

Lemma updateWindowPositions_skips_witness :
  Shell.windows
    (snd (updateWindowPositions Sample.partial (Some [1%Z; 2%Z]) Sample.workspace 0
            (Some (TileInfo.mk (Some [Level.mk (Some [WindowDesc.mk 1 100 50 400 300])])))
            None true (Manager.new false, Sample.shell))) !! 2%Z
  = Some (Sample.window 2 600).
Proof.
  destruct (updateWindowPositions_skips Sample.partial (Manager.new false) Sample.shell
              [1%Z; 2%Z] Sample.workspace 0
              (Some (TileInfo.mk (Some [Level.mk (Some [WindowDesc.mk 1 100 50 400 300])])))
              None true) as (_ & _ & _ & _ & H).
  apply H; reflexivity.
Defined.


Lemma removeAllClips_resets_witness :
  Manager._scrollOffset (fst (removeAllClips (Manager.new false) Sample.shell)) = 0 /\
  Shell.windows (snd (removeAllClips (Manager.new false) Sample.shell)) !! 1%Z
  = Some (MetaWindow.with_actor
            (Some (Actor.set_translation 0 0 0 (Actor.remove_clip Sample.actor)))
            (Sample.window 1 100)).
Proof.
  destruct (removeAllClips_resets (Manager.new false) Sample.shell) as (Hoff & _ & _ & _ & H).
  split; [exact Hoff|].
  destruct (H 1%Z (Sample.window 1 100) eq_refl) as [Hin _].
  apply Hin. compute_done.
Defined.



Lemma resetViewport_centres_witness :
  Manager._canvasStates
    (fst (resetViewport 0 Sample.workspace (Sample.scrolling, Sample.shell))) !! (7%Z, 7%Z)
  = Manager._canvasStates Sample.scrolling !! (7%Z, 7%Z) /\
  Manager._scrollAnimationId
    (fst (resetViewport 0 Sample.workspace (Sample.scrolling, Sample.shell))) = Some 9%Z.
Proof.
  destruct (resetViewport_centres 0 Sample.workspace Sample.scrolling Sample.shell)
    as (_ & _ & H & Hid & _).
  split; [apply H; discriminate|exact Hid].
Defined.

